(** * pkg/store/consul.go: the Consul backend of the key/value store

    A shallow embedding of [consul.go] and the properties of its
    operations.  The Go code talks to a remote Consul agent through
    [github.com/hashicorp/consul/api]; that client library is not part of
    the package, so the agent is a type [B] of backend states with one
    transition function per API call the package makes (class [Backend]).
    The methods of [*Consul] become computations in a state monad over
    the receiver, the heap of [Watch] objects, the backend and a history
    of the API calls issued; a Go panic is an outcome of its own. *)

From Stdlib Require Import Ascii String.
From Stdlib.Strings Require Byte.
From stdpp Require Import gmap strings list sorting.

Open Scope string_scope.
Open Scope list_scope.
Open Scope stdpp_scope.

(** ** Go data *)

Abbreviation uint64 := N (only parsing).
Abbreviation bytes := (list Byte.byte) (only parsing).
(** [time.Duration], a count of nanoseconds. *)
Abbreviation Duration := Z (only parsing).

(** Modelled from the spec: the sentinel errors [ErrKeyModified],
    [ErrKeyNotFound], [ErrCannotLock] and [ErrWatchDoesNotExist] are
    package variables declared outside [consul.go] (§7 of the
    specification: KeyModified, KeyNotFound, CannotLock, WatchNotFound);
    [ErrSessionUndefined] is declared in [consul.go].  Go compares
    [error] values by identity, so each sentinel is a constructor of its
    own, and every other error (those the Consul client returns) is a
    [BackendError]. *)
Inductive error : Type :=
  | ErrKeyModified
  | ErrKeyNotFound
  | ErrCannotLock
  | ErrWatchDoesNotExist
  | ErrSessionUndefined
  | BackendError (msg : string).

#[global] Instance error_eq_dec : EqDecision error.
Proof. solve_decision. Defined.

(** [api.KVPair], with the fields the package reads or writes. *)
Record KVPair : Type := mkKVPair {
  Key : string;
  ModifyIndex : uint64;
  Value : bytes;
  Session : string
}.

(** [api.QueryMeta] and [api.QueryOptions]. *)
Record QueryMeta : Type := mkQueryMeta { QLastIndex : uint64 }.

Record QueryOptions : Type := mkQueryOptions {
  WaitIndex : uint64;
  WaitTime : Duration
}.

(** [*api.Session], the handle returned by [client.Session()]. *)
Inductive SessionHandle : Type := SessionOf.

(** [tls.Config], [http.Transport], [http.Client], [api.Config]. *)
Inductive TLSConfig : Type := TLS (server_name : string).

Record Transport : Type := mkTransport { TLSClientConfig : option TLSConfig }.

Record HttpClient : Type := mkHttpClient { HTransport : option Transport }.

Record Config : Type := mkConfig {
  Address : string;
  Scheme : string;
  HttpClientOf : HttpClient;
  CWaitTime : Duration
}.

(** [*api.Client]: the client remembers the configuration it was made
    from. *)
Record Client : Type := mkClient { client_config : Config }.

(** An address of a [Watch] object; [Watch] values are shared through
    pointers ([map[string]*Watch]). *)
Abbreviation loc := nat (only parsing).

(** [type Watch struct]; [EventChan] holds the identity of the channel. *)
Record Watch : Type := mkWatch {
  LastIndex : uint64;
  Interval : Duration;
  EventChan : nat
}.

(** [type Consul struct].  A Go map from strings to pointers is a finite
    map to optional values: [Some None] is a key bound to [nil], which is
    not the same as an absent key. *)
Record Consul : Type := mkConsul {
  config : Config;
  client : option Client;
  sessions : gmap string (option SessionHandle);
  watches : gmap string (option loc)
}.


(** ** The environment of the package *)

(** [partialFormat] is defined in another file of the package; the
    operations are parameterised by it. *)
Class KeyFormat := partialFormat : string → string.

(** Modelled from the spec: [partialFormat] is missing from the sources;
    §3 says the internal representation strips a single leading
    separator and performs no other normalisation. *)
Definition strip_leading_slash (key : string) : string :=
  match key with
  | String "/"%char rest => rest
  | _ => key
  end.

(** [api.DefaultConfig], [http.DefaultClient] and [api.NewClient]. *)
Class ConsulAPI := {
  DefaultConfig : Config;
  DefaultClient : HttpClient;
  NewClient : Config → option Client * option error
}.

(** The calls made on [s.client.KV()] and on a session handle.  Each
    returns the Go result tuple (without the metadata the package
    discards) and the next backend state. *)
Class Backend (B : Type) := {
  kv_get : string → option QueryOptions → B →
           (option KVPair * option QueryMeta * option error) * B;
  kv_list : string → option QueryOptions → B →
            (list KVPair * option QueryMeta * option error) * B;
  kv_put : KVPair → B → option error * B;
  kv_delete : string → B → option error * B;
  kv_delete_tree : string → B → option error * B;
  kv_cas : KVPair → B → (bool * option error) * B;
  kv_delete_cas : KVPair → B → (bool * option error) * B;
  kv_acquire : KVPair → B → (bool * option error) * B;
  session_create_no_checks : B → (string * option error) * B;
  session_destroy : string → B → option error * B
}.

(** The history of API calls, kept as ghost state. *)
Inductive call : Type :=
  | CallGet (key : string) (q : option QueryOptions)
  | CallList (prefix : string)
  | CallPut (p : KVPair)
  | CallDelete (key : string)
  | CallDeleteTree (prefix : string)
  | CallCAS (p : KVPair)
  | CallDeleteCAS (p : KVPair)
  | CallAcquire (p : KVPair)
  | CallSessionCreate
  | CallSessionDestroy (id : string).

#[global] Instance byte_eq_dec : EqDecision Byte.byte := Strings.Byte.byte_eq_dec.
#[global] Instance KVPair_eq_dec : EqDecision KVPair.
Proof. solve_decision. Defined.
#[global] Instance QueryOptions_eq_dec : EqDecision QueryOptions.
Proof. solve_decision. Defined.
#[global] Instance call_eq_dec : EqDecision call.
Proof. solve_decision. Defined.

(** ** The monad of the methods *)

Inductive res (A : Type) : Type :=
  | Val (a : A)
  | Panic (msg : string).
Arguments Val {A} a.
Arguments Panic {A} msg.

Record World (B : Type) : Type := mkWorld {
  store : Consul;
  heap : list Watch;
  backend : B;
  calls : list call
}.
Arguments mkWorld {B} _ _ _ _.
Arguments store {B} _.
Arguments heap {B} _.
Arguments backend {B} _.
Arguments calls {B} _.

Definition M (B A : Type) : Type := World B → res A * World B.

#[global] Instance M_ret {B} : MRet (M B) := λ A a w, (Val a, w).

#[global] Instance M_bind {B} : MBind (M B) := λ A A' f m w,
  match m w with
  | (Val a, w') => f a w'
  | (Panic msg, w') => (Panic msg, w')
  end.

Definition panic {B A} (msg : string) : M B A := λ w, (Panic msg, w).

Definition get_store {B} : M B Consul := λ w, (Val (store w), w).

Definition put_store {B} (s : Consul) : M B unit :=
  λ w, (Val tt, mkWorld s (heap w) (backend w) (calls w)).

(** One API call: run the backend's transition and record the call. *)
Definition api {B A} (c : call) (f : B → A * B) : M B A := λ w,
  let '(r, b) := f (backend w) in
  (Val r, mkWorld (store w) (heap w) b (calls w ++ [c])).

Definition set_sessions (m : gmap string (option SessionHandle)) (s : Consul) : Consul :=
  mkConsul (config s) (client s) m (watches s).

Definition set_watches (m : gmap string (option loc)) (s : Consul) : Consul :=
  mkConsul (config s) (client s) (sessions s) m.



Section Operations.
Context `{!KeyFormat} `{!Backend B}.

(** [func (s *Consul) Get].  [meta] is dereferenced only on the last
    line. *)
Definition Get (key : string) : M B (bytes * uint64 * option error) :=
  '(kv, meta, err) ← api (CallGet (partialFormat key) None) (kv_get (partialFormat key) None);
  match err with
  | Some e => mret ([], 0%N, Some e)
  | None =>
      match kv with
      | None => mret ([], 0%N, Some ErrKeyNotFound)
      | Some kv =>
          match meta with
          | None => panic "nil pointer dereference"
          | Some meta => mret (Value kv, QLastIndex meta, None)
          end
      end
  end.

(** [func (s *Consul) Put]; a nil client is only logged. *)
Definition Put (key : string) (value : bytes) : M B (option error) :=
  let p := mkKVPair (partialFormat key) 0 value "" in
  api (CallPut p) (kv_put p).

(** [func (s *Consul) Delete]. *)
Definition Delete (key : string) : M B (option error) :=
  api (CallDelete (partialFormat key)) (kv_delete (partialFormat key)).

(** [func (s *Consul) Exists]. *)
Definition Exists (key : string) : M B (bool * option error) :=
  '(_, _, err) ← Get key;
  if decide (err ≠ None ∧ err = Some ErrKeyNotFound)
  then mret (false, err)
  else mret (true, None).

(** The loop of [GetRange]: [values] grows by [append], entries whose
    key is [prefix] are skipped. *)
Definition collect_values (prefix : string) (pairs : list KVPair) : list bytes :=
  fold_left
    (λ values kv, if decide (Key kv = prefix) then values else values ++ [Value kv])
    pairs [].

(** [func (s *Consul) GetRange]. *)
Definition GetRange (prefix : string) : M B (list bytes * option error) :=
  '(pairs, _, err) ← api (CallList (partialFormat prefix)) (kv_list (partialFormat prefix) None);
  match err with
  | Some e => mret ([], Some e)
  | None => mret (collect_values prefix pairs, None)
  end.

(** [func (s *Consul) DeleteRange]. *)
Definition DeleteRange (prefix : string) : M B (option error) :=
  api (CallDeleteTree (partialFormat prefix)) (kv_delete_tree (partialFormat prefix)).

(** [func (s *Consul) CancelWatch]: the test is the comma-ok lookup, the
    update binds the key to [nil]. *)
Definition CancelWatch (key : string) : M B (option error) :=
  let key := partialFormat key in
  s ← get_store;
  match watches s !! key with
  | None => mret (Some ErrWatchDoesNotExist)
  | Some _ =>
      put_store (set_watches (<[key := None]> (watches s)) s);;
      mret None
  end.


(** [Destroy] on a [*api.Session]: the method builds its request from the
    client stored in the receiver, so a nil receiver panics before any
    request is sent. *)
Definition Session_Destroy (session : option SessionHandle) (id : string)
  : M B (option error) :=
  match session with
  | None => panic "nil pointer dereference"
  | Some _ => api (CallSessionDestroy id) (session_destroy id)
  end.

(** [func (s *Consul) Acquire]. *)
Definition Acquire (key : string) (value : bytes) : M B (string * option error) :=
  let key := partialFormat key in
  let session := SessionOf in
  '(id, err) ← api CallSessionCreate session_create_no_checks;
  match err with
  | Some e => mret ("", Some e)
  | None =>
      s ← get_store;
      put_store (set_sessions (<[id := Some session]> (sessions s)) s);;
      let p := mkKVPair key 0 value id in
      '(work, err) ← api (CallAcquire p) (kv_acquire p);
      match err with
      | Some e => mret ("", Some e)
      | None => if negb work then mret ("", Some ErrCannotLock) else mret (id, None)
      end
  end.

(** [func (s *Consul) Release]; the result of [Destroy] is dropped. *)
Definition Release (id : string) : M B (option error) :=
  s ← get_store;
  match sessions s !! id with
  | None => mret (Some ErrSessionUndefined)
  | Some session =>
      Session_Destroy session id;;
      s ← get_store;
      put_store (set_sessions (<[id := None]> (sessions s)) s);;
      mret None
  end.

(** [func (s *Consul) AtomicPut]. *)
Definition AtomicPut (key : string) (_ : bytes) (newValue : bytes) (index : uint64)
  : M B (bool * option error) :=
  let p := mkKVPair (partialFormat key) index newValue "" in
  '(work, err) ← api (CallCAS p) (kv_cas p);
  match err with
  | Some e => mret (false, Some e)
  | None => if negb work then mret (false, Some ErrKeyModified) else mret (true, None)
  end.

(** [func (s *Consul) AtomicDelete]. *)
Definition AtomicDelete (key : string) (oldValue : bytes) (index : uint64)
  : M B (bool * option error) :=
  let p := mkKVPair (partialFormat key) index [] "" in
  '(work, err) ← api (CallDeleteCAS p) (kv_delete_cas p);
  match err with
  | Some e => mret (false, Some e)
  | None => if negb work then mret (false, Some ErrKeyModified) else mret (true, None)
  end.

End Operations.

(** ** Construction *)

Section Construction.
Context `{!ConsulAPI}.





End Construction.

(** ** Watch and WatchRange

    A call of [Watch] (or [WatchRange]) runs two threads: the caller,
    which ranges over the channel, and the goroutine started by
    [waitForChange], which long-polls the backend.  They share the
    receiver [s], the [Watch] object the registry points to and the
    unbuffered channel.  The system below interleaves them one shared
    access at a time; a third kind of step is a concurrent call of
    [CancelWatch] by another goroutine. *)

Inductive watch_kind : Type := OfKey | OfPrefix.

(** The locals of the call after its first two statements: [target] is
    [partialFormat(key)]. *)
Record watch_call : Type := mkWatchCall {
  kind : watch_kind;
  target : string;
  heartbeat : Duration
}.

(** Where the caller is in the body of [Watch] / [WatchRange]. *)
Inductive main_pc : Type :=
  | MStart
  | MRegister
  | MReceive
  | MRefresh
  | MTeardown (e : error)
  | MReturned (r : option error).

(** Where the goroutine of [waitForChange] is. *)
Inductive poller_pc : Type :=
  | PNotStarted
  | PLookup
  | PWaiting (watch : loc) (option : QueryOptions)
  | PSending (v : uint64)
  | PClosing
  | PExited.

(** What happened, oldest first (ghost state). *)
Inductive hevent : Type :=
  | LongPoll (watch : loc) (option : QueryOptions) (r : error + uint64)
  | Notified (v : uint64)
  | Refreshed (err : option error)
  | Delivered (values : list (list Byte.byte))
  | Cancelled (key : string) (r : option error).

Record System (B : Type) : Type := mkSystem {
  world : World B;
  main : main_pc;
  poller : poller_pc;
  closed : bool;
  panicked : bool;
  history : list hevent
}.
Arguments mkSystem {B} _ _ _ _ _ _.
Arguments world {B} _.
Arguments main {B} _.
Arguments poller {B} _.
Arguments closed {B} _.
Arguments panicked {B} _.
Arguments history {B} _.

Inductive event : Type :=
  | RunMain
  | RunPoller
  | Handoff
  | OtherCancel (key : string).

Definition set_heap {B} (h : list Watch) (w : World B) : World B :=
  mkWorld (store w) h (backend w) (calls w).

Definition set_store {B} (s : Consul) (w : World B) : World B :=
  mkWorld s (heap w) (backend w) (calls w).

Definition set_LastIndex (v : uint64) (wt : Watch) : Watch :=
  mkWatch v (Interval wt) (EventChan wt).

Section Watching.
Context `{!KeyFormat} `{!Backend B}.

(** [func (s *Consul) Watch] and [func (s *Consul) WatchRange] up to the
    loop. *)
Definition Watch_call (key : string) (heartbeat : Duration) : watch_call :=
  mkWatchCall OfKey (partialFormat key) heartbeat.

Definition WatchRange_call (prefix filter : string) (heartbeat : Duration) : watch_call :=
  mkWatchCall OfPrefix (partialFormat prefix) heartbeat.

(** The read in the loop body: [s.Get(key)] with
    [value := [][]byte{[]byte(entry)}], or [s.GetRange(prefix)]. *)
Definition refresh (c : watch_call) : M B (list bytes * option error) :=
  match kind c with
  | OfKey => '(entry, _, err) ← Get (target c); mret ([entry], err)
  | OfPrefix => GetRange (target c)
  end.

(** One step of the caller. *)
Definition main_step (c : watch_call) (σ : System B) : option (System B) :=
  let w := world σ in
  match main σ with
  | MStart =>
      (* eventChan := s.waitForChange(key): make(chan uint64); go func() *)
      Some (mkSystem w MRegister PLookup (closed σ) (panicked σ) (history σ))
  | MRegister =>
      (* s.watches[key] = &Watch{Interval: interval, EventChan: eventChan} *)
      let l := length (heap w) in
      let s := set_watches (<[target c := Some l]> (watches (store w))) (store w) in
      let w' := set_store s (set_heap (heap w ++ [mkWatch 0 (heartbeat c) 0]) w) in
      Some (mkSystem w' MReceive (poller σ) (closed σ) (panicked σ) (history σ))
  | MReceive =>
      (* for _ = range eventChan: the loop ends when the channel is closed *)
      if closed σ
      then Some (mkSystem w (MReturned None) (poller σ) (closed σ) (panicked σ) (history σ))
      else None
  | MRefresh =>
      match refresh c w with
      | (Val (values, None), w') =>
          Some (mkSystem w' MReceive (poller σ) (closed σ) (panicked σ)
                  (history σ ++ [Refreshed None; Delivered values]))
      | (Val (_, Some e), w') =>
          Some (mkSystem w' (MTeardown e) (poller σ) (closed σ) (panicked σ)
                  (history σ ++ [Refreshed (Some e)]))
      | (Panic _, w') =>
          Some (mkSystem w' (main σ) (poller σ) (closed σ) true (history σ))
      end
  | MTeardown e =>
      (* s.watches[key] = nil; return err *)
      let s := set_watches (<[target c := None]> (watches (store w))) (store w) in
      Some (mkSystem (set_store s w) (MReturned (Some e)) (poller σ) (closed σ)
              (panicked σ) (history σ))
  | MReturned _ => None
  end.

(** One step of the goroutine of [waitForChange]. *)
Definition poller_step (c : watch_call) (σ : System B) : option (System B) :=
  let w := world σ in
  match poller σ with
  | PNotStarted => None
  | PLookup =>
      (* watch, ok := s.watches[key]; option := &api.QueryOptions{...} *)
      match watches (store w) !! target c with
      | None => Some (mkSystem w (main σ) PClosing (closed σ) (panicked σ) (history σ))
      | Some None => Some (mkSystem w (main σ) (poller σ) (closed σ) true (history σ))
      | Some (Some l) =>
          match heap w !! l with
          | Some watch =>
              Some (mkSystem w (main σ)
                      (PWaiting l (mkQueryOptions (LastIndex watch) (Interval watch)))
                      (closed σ) (panicked σ) (history σ))
          | None => None (* an address outside the heap: not a Go state *)
          end
      end
  | PWaiting l option =>
      (* _, meta, err := s.client.KV().Get(key, option) *)
      match api (CallGet (target c) (Some option)) (kv_get (target c) (Some option)) w with
      | (Val (_, _, Some e), w') =>
          Some (mkSystem w' (main σ) PClosing (closed σ) (panicked σ)
                  (history σ ++ [LongPoll l option (inl e)]))
      | (Val (_, None, None), w') =>
          Some (mkSystem w' (main σ) (poller σ) (closed σ) true (history σ))
      | (Val (_, Some meta, None), w') =>
          (* watch.LastIndex = meta.LastIndex; ch <- watch.LastIndex *)
          match heap w' !! l with
          | Some watch =>
              let watch' := set_LastIndex (QLastIndex meta) watch in
              Some (mkSystem (set_heap (<[l := watch']> (heap w')) w') (main σ)
                      (PSending (LastIndex watch')) (closed σ) (panicked σ)
                      (history σ ++ [LongPoll l option (inr (QLastIndex meta))]))
          | None => None
          end
      | (Panic _, w') => Some (mkSystem w' (main σ) (poller σ) (closed σ) true (history σ))
      end
  | PSending _ => None
  | PClosing =>
      (* close(ch) *)
      Some (mkSystem w (main σ) PExited true (panicked σ) (history σ))
  | PExited => None
  end.

(** A step of the system; [None] when the event is not enabled.  A panic
    in either goroutine stops the process. *)
Definition step (c : watch_call) (ev : event) (σ : System B) : option (System B) :=
  if panicked σ then None
  else
    match ev with
    | RunMain => main_step c σ
    | RunPoller => poller_step c σ
    | Handoff =>
        (* the send and the receive on the unbuffered channel meet *)
        match main σ, poller σ with
        | MReceive, PSending v =>
            Some (mkSystem (world σ) MRefresh PLookup (closed σ) (panicked σ)
                    (history σ ++ [Notified v]))
        | _, _ => None
        end
    | OtherCancel key =>
        match CancelWatch key (world σ) with
        | (Val r, w') =>
            Some (mkSystem w' (main σ) (poller σ) (closed σ) (panicked σ)
                    (history σ ++ [Cancelled key r]))
        | (Panic _, w') =>
            Some (mkSystem w' (main σ) (poller σ) (closed σ) true (history σ))
        end
    end.

(** Run a schedule; events that are not enabled are skipped. *)
Fixpoint run (c : watch_call) (evs : list event) (σ : System B) : System B :=
  match evs with
  | [] => σ
  | ev :: evs =>
      match step c ev σ with
      | Some σ' => run c evs σ'
      | None => run c evs σ
      end
  end.

(** The system when [Watch] is entered. *)
Definition start (w : World B) : System B :=
  mkSystem w MStart PNotStarted false false [].

End Watching.

(** ** Reading the history *)

(** The indices reported by the successful long-polls on the object
    [l]. *)
Definition polled_at (l : loc) (h : list hevent) : list N :=
  omap (λ e, match e with
             | LongPoll l' _ (inr v) => if decide (l' = l) then Some v else None
             | _ => None
             end) h.

(** The indices reported by all successful long-polls. *)
Definition polled (h : list hevent) : list N :=
  omap (λ e, match e with LongPoll _ _ (inr v) => Some v | _ => None end) h.

(** The errors of the failed long-polls. *)
Definition poll_errors (h : list hevent) : list error :=
  omap (λ e, match e with LongPoll _ _ (inl e) => Some e | _ => None end) h.

(** The indices received by the caller from the channel. *)
Definition notified (h : list hevent) : list N :=
  omap (λ e, match e with Notified v => Some v | _ => None end) h.

(** The results of the reads made by the caller, and their errors. *)
Definition refreshes (h : list hevent) : list (option error) :=
  omap (λ e, match e with Refreshed r => Some r | _ => None end) h.

Definition refresh_errors (h : list hevent) : list error :=
  omap (λ e, match e with Refreshed (Some e) => Some e | _ => None end) h.

(** Every successful long-poll reported an index at least the
    [WaitIndex] it was asked with. *)
Definition answers_not_below (h : list hevent) : Prop :=
  Forall (λ e, match e with
               | LongPoll _ option (inr v) => (WaitIndex option ≤ v)%N
               | _ => True
               end) h.

(** The cursor of the object [l] when the call starts: its [LastIndex]
    when it exists already, the zero value of a fresh [Watch]
    otherwise. *)
Definition initial_cursor {B} (w : World B) (l : loc) : N :=
  match heap w !! l with
  | Some watch => LastIndex watch
  | None => 0%N
  end.

(** ** A scripted backend

    A test double of the Consul agent: the state is the list of replies
    still to give; a call takes the next reply when it has the right
    shape and answers with an error otherwise. *)

Inductive reply : Type :=
  | ReplyGet (kv : option KVPair) (meta : option QueryMeta) (err : option error)
  | ReplyList (pairs : list KVPair) (meta : option QueryMeta) (err : option error)
  | ReplyWrite (work : bool) (err : option error)
  | ReplySession (id : string) (err : option error).

Definition unscripted : option error := Some (BackendError "unscripted call").

#[global] Instance scripted : Backend (list reply) := {
  kv_get _ _ b :=
    match b with
    | ReplyGet kv meta err :: b' => ((kv, meta, err), b')
    | _ => ((None, None, unscripted), b)
    end;
  kv_list _ _ b :=
    match b with
    | ReplyList pairs meta err :: b' => ((pairs, meta, err), b')
    | _ => (([], None, unscripted), b)
    end;
  kv_put _ b :=
    match b with
    | ReplyWrite _ err :: b' => (err, b')
    | _ => (unscripted, b)
    end;
  kv_delete _ b :=
    match b with
    | ReplyWrite _ err :: b' => (err, b')
    | _ => (unscripted, b)
    end;
  kv_delete_tree _ b :=
    match b with
    | ReplyWrite _ err :: b' => (err, b')
    | _ => (unscripted, b)
    end;
  kv_cas _ b :=
    match b with
    | ReplyWrite work err :: b' => ((work, err), b')
    | _ => ((false, unscripted), b)
    end;
  kv_delete_cas _ b :=
    match b with
    | ReplyWrite work err :: b' => ((work, err), b')
    | _ => ((false, unscripted), b)
    end;
  kv_acquire _ b :=
    match b with
    | ReplyWrite work err :: b' => ((work, err), b')
    | _ => ((false, unscripted), b)
    end;
  session_create_no_checks b :=
    match b with
    | ReplySession id err :: b' => ((id, err), b')
    | _ => (("", unscripted), b)
    end;
  session_destroy _ b :=
    match b with
    | ReplyWrite _ err :: b' => (err, b')
    | _ => (unscripted, b)
    end
}.

#[global] Instance slash_format : KeyFormat := strip_leading_slash.

(** A client as [InitializeConsul] returns it, with the given
    registries. *)
Definition test_config : Config := mkConfig "127.0.0.1:8500" "http" (mkHttpClient None) 0.

#[global] Instance test_api : ConsulAPI := {
  DefaultConfig := test_config;
  DefaultClient := mkHttpClient None;
  NewClient cfg :=
    if decide (Address cfg = "") then (None, Some (BackendError "no address"))
    else (Some (mkClient cfg), None)
}.

Definition test_store (ss : gmap string (option SessionHandle))
    (ws : gmap string (option loc)) : Consul :=
  mkConsul test_config (Some (mkClient test_config)) ss ws.

Definition fresh_world (script : list reply) : World (list reply) :=
  mkWorld (test_store ∅ ∅) [] script [].

(** ** The invariant of a watch *)

(** The index the goroutine is blocked sending, the notification the
    caller has received and not yet followed by its read, and the error
    the caller is returning. *)
Definition pending (p : poller_pc) : list N :=
  match p with
  | PSending v => [v]
  | _ => []
  end.

Definition refreshing (m : main_pc) : nat :=
  match m with
  | MRefresh => 1
  | _ => 0
  end.

Definition failure (m : main_pc) : list error :=
  match m with
  | MTeardown e | MReturned (Some e) => [e]
  | _ => []
  end.

(** The last of the indices [l], or [d] when there is none. *)
Definition cursor_of (d : N) (l : list N) : N := default d (last l).

Record invariant {B} (w0 : World B) (σ : System B) : Prop := mkInvariant {
  inv_start : main σ = MStart → poller σ = PNotStarted;
  inv_grow : (length (heap w0) ≤ length (heap (world σ)))%nat;
  inv_beyond : ∀ l, (length (heap (world σ)) ≤ l)%nat → polled_at l (history σ) = [];
  inv_cursor : ∀ l watch, heap (world σ) !! l = Some watch →
    LastIndex watch = cursor_of (initial_cursor w0 l) (polled_at l (history σ));
  inv_waiting : ∀ l option, poller σ = PWaiting l option →
    ∃ watch, heap (world σ) !! l = Some watch ∧ WaitIndex option = LastIndex watch;
  inv_sorted : answers_not_below (history σ) →
    ∀ l, Sorted N.le (initial_cursor w0 l :: polled_at l (history σ));
  inv_notified : polled (history σ) = notified (history σ) ++ pending (poller σ);
  inv_refreshed :
    length (notified (history σ)) = (length (refreshes (history σ)) + refreshing (main σ))%nat;
  inv_failure : refresh_errors (history σ) = failure (main σ);
  inv_closed : closed σ = true → poller σ = PExited;
  inv_nil : main σ = MReturned None → closed σ = true
}.

(** ** Further readings of the state *)

(** The arguments of the calls of the callback. *)
Definition delivered (h : list hevent) : list (list (list Byte.byte)) :=
  omap (λ e, match e with Delivered values => Some values | _ => None end) h.

(** The API calls a watch makes: the long-poll on [key], and the read of
    the loop body, which formats the formatted key once more. *)
Definition watch_read `{!KeyFormat} (c : watch_call) (x : call) : Prop :=
  match x with
  | CallGet k (Some _) => k = target c
  | CallGet k None => kind c = OfKey ∧ k = partialFormat (target c)
  | CallList p => kind c = OfPrefix ∧ p = partialFormat (target c)
  | _ => False
  end.




(** Whether the caller is past [s.watches[key] = &Watch{...}]. *)
Definition registered (m : main_pc) : bool :=
  match m with
  | MStart | MRegister => false
  | _ => true
  end.

(** The fields of a [Watch] other than [LastIndex]. *)
Definition static (watch : Watch) : Z * nat := (Interval watch, EventChan watch).

(** What a watch leaves alone, relative to the world [w0] it started
    in. *)
Record footprint `{!KeyFormat} {B} (c : watch_call) (w0 : World B) (σ : System B) : Prop :=
  mkFootprint {
  fp_calls : ∃ new, calls (world σ) = calls w0 ++ new ∧ Forall (watch_read c) new;
  fp_delivered :
    (length (delivered (history σ)) + length (refresh_errors (history σ)))%nat
    = length (refreshes (history σ));
  fp_single : kind c = OfKey → Forall (λ values, length values = 1%nat) (delivered (history σ));
  fp_heap :
    static <$> heap (world σ)
    = (static <$> heap w0) ++ (if registered (main σ) then [(heartbeat c, 0%nat)] else []);
  fp_sessions : sessions (store (world σ)) = sessions (store w0);
  fp_config : config (store (world σ)) = config (store w0)
              ∧ client (store (world σ)) = client (store w0);
  fp_keys :
    dom (watches (store (world σ)))
    = dom (watches (store w0)) ∪ (if registered (main σ) then {[target c]} else ∅)
}.

(** * Properties *)

(** ** The monad *)

(** Unfold the plumbing of the monad. *)
Ltac run_monad :=
  unfold mbind, M_bind, mret, M_ret, get_store, put_store, panic; simpl.

Section MonadFacts.
Context {B : Type}.

Lemma bind_val {A A'} (m : M B A) (f : A → M B A') (w w' : World B) (a : A) :
  m w = (Val a, w') → (m ≫= f) w = f a w'.
Proof. intros E. unfold mbind, M_bind. by rewrite E. Qed.

Lemma api_run {A} (c : call) (f : B → A * B) (w : World B) (r : A) (b : B) :
  f (backend w) = (r, b) →
  api c f w = (Val r, mkWorld (store w) (heap w) b (calls w ++ [c])).
Proof. intros E. unfold api. by rewrite E. Qed.

End MonadFacts.

(** ** Compare-and-swap *)

Section AtomicFacts.
Context `{!KeyFormat} `{!Backend B}.

Lemma AtomicPut_run (w : World B) key old newValue index work err b :
  kv_cas (mkKVPair (partialFormat key) index newValue "") (backend w) = ((work, err), b) →
  (AtomicPut key old newValue index w).1 =
    Val (match err with
         | Some e => (false, Some e)
         | None => if work then (true, None) else (false, Some ErrKeyModified)
         end).
Proof.
  intros E. unfold AtomicPut.
  erewrite bind_val by (apply api_run, E).
  destruct err as [e|]; [done|]. by destruct work.
Qed.

Lemma AtomicDelete_run (w : World B) key oldValue index work err b :
  kv_delete_cas (mkKVPair (partialFormat key) index [] "") (backend w) = ((work, err), b) →
  (AtomicDelete key oldValue index w).1 =
    Val (match err with
         | Some e => (false, Some e)
         | None => if work then (true, None) else (false, Some ErrKeyModified)
         end).
Proof.
  intros E. unfold AtomicDelete.
  erewrite bind_val by (apply api_run, E).
  destruct err as [e|]; [done|]. by destruct work.
Qed.

(** C3: [AtomicPut] returns [(true, nil)] when the backend applies the
    conditional write, [(false, ErrKeyModified)] when the backend
    rejects it, and [(false, e)] with the backend's own error [e] when
    the call fails; [AtomicDelete] does the same for the conditional
    delete. *)
Theorem AtomicPut_AtomicDelete_contract (w : World B) key old newValue index :
  let put := kv_cas (mkKVPair (partialFormat key) index newValue "") (backend w) in
  let del := kv_delete_cas (mkKVPair (partialFormat key) index [] "") (backend w) in
  (put.1 = (true, None) → (AtomicPut key old newValue index w).1 = Val (true, None))
  ∧ (put.1 = (false, None) →
     (AtomicPut key old newValue index w).1 = Val (false, Some ErrKeyModified))
  ∧ (∀ work e, put.1 = (work, Some e) →
     (AtomicPut key old newValue index w).1 = Val (false, Some e))
  ∧ (del.1 = (true, None) → (AtomicDelete key old index w).1 = Val (true, None))
  ∧ (del.1 = (false, None) →
     (AtomicDelete key old index w).1 = Val (false, Some ErrKeyModified))
  ∧ (∀ work e, del.1 = (work, Some e) →
     (AtomicDelete key old index w).1 = Val (false, Some e)).
Proof.
  intros put del.
  destruct put as [[pw pe] pb] eqn:Ep. destruct del as [[dw de] db] eqn:Ed.
  simpl. repeat split.
  - intros [= -> ->]. by rewrite (AtomicPut_run _ _ _ _ _ _ _ _ Ep).
  - intros [= -> ->]. by rewrite (AtomicPut_run _ _ _ _ _ _ _ _ Ep).
  - intros work e [= -> ->]. by rewrite (AtomicPut_run _ _ _ _ _ _ _ _ Ep).
  - intros [= -> ->]. by rewrite (AtomicDelete_run _ _ _ _ _ _ _ Ed).
  - intros [= -> ->]. by rewrite (AtomicDelete_run _ _ _ _ _ _ _ Ed).
  - intros work e [= -> ->]. by rewrite (AtomicDelete_run _ _ _ _ _ _ _ Ed).
Qed.

End AtomicFacts.

(** An applied write, a stale write and a failed delete. *)
Lemma AtomicPut_AtomicDelete_contract_witness :
  (AtomicPut "/a" [] [Byte.x01] 3 (fresh_world [ReplyWrite true None])).1 = Val (true, None)
  ∧ (AtomicPut "/a" [] [Byte.x01] 3 (fresh_world [ReplyWrite false None])).1
    = Val (false, Some ErrKeyModified)
  ∧ (AtomicDelete "/a" [] 3
       (fresh_world [ReplyWrite false (Some (BackendError "connection refused"))])).1
    = Val (false, Some (BackendError "connection refused")).
Proof.
  split; [|split].
  - destruct (AtomicPut_AtomicDelete_contract (fresh_world [ReplyWrite true None])
                "/a" [] [Byte.x01] 3) as (H & _).
    apply H. reflexivity.
  - destruct (AtomicPut_AtomicDelete_contract (fresh_world [ReplyWrite false None])
                "/a" [] [Byte.x01] 3) as (_ & H & _).
    apply H. reflexivity.
  - destruct (AtomicPut_AtomicDelete_contract
                (fresh_world [ReplyWrite false (Some (BackendError "connection refused"))])
                "/a" [] [] 3) as (_ & _ & _ & _ & _ & H).
    apply (H false). reflexivity.
Defined.

(** ** Locks *)

Section LockFacts.
Context `{!KeyFormat} `{!Backend B}.

Lemma Release_unknown (w : World B) id :
  sessions (store w) !! id = None →
  Release id w = (Val (Some ErrSessionUndefined), w).
Proof. intros E. unfold Release. run_monad. by rewrite E. Qed.

(** A tracked session with a live handle: the backend session is
    destroyed, whatever [Destroy] answers, and the key stays in the map,
    bound to [nil]. *)
Lemma Release_tracked (w : World B) id h err b :
  sessions (store w) !! id = Some (Some h) →
  session_destroy id (backend w) = (err, b) →
  Release id w =
    (Val None,
     mkWorld (set_sessions (<[id := None]> (sessions (store w))) (store w))
       (heap w) b (calls w ++ [CallSessionDestroy id])).
Proof.
  intros E D. unfold Release. run_monad. rewrite E. simpl. unfold api. by rewrite D.
Qed.

(** A key bound to [nil] passes the comma-ok test and the call of
    [Destroy] through the nil handle panics. *)
Lemma Release_nil_handle (w : World B) id :
  sessions (store w) !! id = Some None →
  Release id w = (Panic "nil pointer dereference", w).
Proof. intros E. unfold Release. run_monad. by rewrite E. Qed.

Lemma Acquire_rejected_run (w : World B) key value id b1 b2 :
  session_create_no_checks (backend w) = ((id, None), b1) →
  kv_acquire (mkKVPair (partialFormat key) 0 value id) b1 = ((false, None), b2) →
  Acquire key value w =
    (Val ("", Some ErrCannotLock),
     mkWorld (set_sessions (<[id := Some SessionOf]> (sessions (store w))) (store w))
       (heap w) b2
       (calls w ++ [CallSessionCreate; CallAcquire (mkKVPair (partialFormat key) 0 value id)])).
Proof.
  intros C A. unfold Acquire.
  erewrite bind_val by (apply api_run, C). run_monad.
  unfold api. simpl. rewrite A. simpl. by rewrite <- app_assoc.
Qed.

(** C4: when the backend rejects the session-tagged write, [Acquire]
    fails with [ErrCannotLock]; the only API calls it has made are the
    creation of the session and the rejected write, so the session is
    not destroyed, and its id stays in the session map. *)
Theorem Acquire_rejected_keeps_session (w : World B) key value id b1 b2 :
  session_create_no_checks (backend w) = ((id, None), b1) →
  kv_acquire (mkKVPair (partialFormat key) 0 value id) b1 = ((false, None), b2) →
  let out := Acquire key value w in
  out.1 = Val ("", Some ErrCannotLock)
  ∧ calls out.2 =
      calls w ++ [CallSessionCreate; CallAcquire (mkKVPair (partialFormat key) 0 value id)]
  ∧ (∀ sid, CallSessionDestroy sid ∉ drop (length (calls w)) (calls out.2))
  ∧ backend out.2 = b2
  ∧ sessions (store out.2) !! id = Some (Some SessionOf).
Proof.
  intros C A out. subst out. rewrite (Acquire_rejected_run _ _ _ _ _ _ C A). simpl.
  rewrite lookup_insert_eq.
  repeat split; try done.
  intros sid. rewrite drop_app_length, !elem_of_cons, elem_of_nil.
  intros [?|[?|[]]]; discriminate.
Qed.

End LockFacts.

(** A lock held by another session. *)
Lemma Acquire_rejected_keeps_session_witness :
  let w := fresh_world [ReplySession "s-1" None; ReplyWrite false None] in
  let out := Acquire "/lock/a" [Byte.x79] w in
  out.1 = Val ("", Some ErrCannotLock)
  ∧ calls out.2 =
      [CallSessionCreate; CallAcquire (mkKVPair "lock/a" 0 [Byte.x79] "s-1")]
  ∧ (∀ sid, CallSessionDestroy sid ∉ drop 0 (calls out.2))
  ∧ backend out.2 = []
  ∧ sessions (store out.2) !! "s-1" = Some (Some SessionOf).
Proof.
  exact (Acquire_rejected_keeps_session
           (fresh_world [ReplySession "s-1" None; ReplyWrite false None])
           "/lock/a" [Byte.x79] "s-1" [ReplyWrite false None] [] eq_refl eq_refl).
Defined.

(** C6: a second [Release] of an id that was released successfully does
    not fail with [ErrSessionUndefined]: the first call binds the id to
    [nil] instead of removing it, so the second passes the lookup and
    panics in [Destroy]. *)
Theorem Release_twice :
  let w := mkWorld (test_store {["s-1" := Some SessionOf]} ∅) [] [ReplyWrite true None] [] in
  let first := Release "s-1" w in
  let second := Release "s-1" first.2 in
  first.1 = Val None
  ∧ calls first.2 = [CallSessionDestroy "s-1"]
  ∧ sessions (store first.2) !! "s-1" = Some None
  ∧ second.1 = Panic "nil pointer dereference"
  ∧ second.1 ≠ Val (Some ErrSessionUndefined).
Proof.
  intros w first second.
  pose proof (Release_tracked w "s-1" SessionOf None [] eq_refl eq_refl) as H1.
  fold first in H1.
  assert (sessions (store first.2) !! "s-1" = Some None) as Hnil
    by (rewrite H1; apply lookup_insert_eq).
  pose proof (Release_nil_handle first.2 "s-1" Hnil) as H2. fold second in H2.
  rewrite H1 in *. rewrite H2. simpl. repeat split; done.
Qed.

(** ** Reads *)

Section ReadFacts.
Context `{!KeyFormat} `{!Backend B}.

Lemma Get_run (w : World B) key kv meta err b :
  kv_get (partialFormat key) None (backend w) = ((kv, meta, err), b) →
  Get key w =
    let w' := mkWorld (store w) (heap w) b (calls w ++ [CallGet (partialFormat key) None]) in
    match err, kv, meta with
    | Some e, _, _ => (Val ([], 0%N, Some e), w')
    | None, None, _ => (Val ([], 0%N, Some ErrKeyNotFound), w')
    | None, Some kv, Some meta => (Val (Value kv, QLastIndex meta, None), w')
    | None, Some _, None => (Panic "nil pointer dereference", w')
    end.
Proof.
  intros E. unfold Get. erewrite bind_val by (apply api_run, E).
  destruct err; [done|]. destruct kv; [|done]. by destruct meta.
Qed.

(** A failed backend read other than the miss makes [Exists] answer
    [(true, nil)]. *)
Lemma Exists_backend_error (w : World B) key kv meta e b :
  kv_get (partialFormat key) None (backend w) = ((kv, meta, Some e), b) →
  e ≠ ErrKeyNotFound →
  (Exists key w).1 = Val (true, None).
Proof.
  intros E Hne. unfold Exists. erewrite bind_val by (apply (Get_run _ _ _ _ _ _ E)).
  simpl. destruct (decide _) as [[_ Hd]|Hd]; [congruence|done].
Qed.

Lemma Exists_miss (w : World B) key meta b :
  kv_get (partialFormat key) None (backend w) = ((None, meta, None), b) →
  (Exists key w).1 = Val (false, Some ErrKeyNotFound).
Proof.
  intros E. unfold Exists. erewrite bind_val by (apply (Get_run _ _ _ _ _ _ E)).
  done.
Qed.

Lemma collect_values_from (prefix : string) (pairs : list KVPair) (acc : list (list Byte.byte)) :
  fold_left
    (λ values kv, if decide (Key kv = prefix) then values else values ++ [Value kv])
    pairs acc
  = acc ++ (Value <$> filter (λ kv, Key kv ≠ prefix) pairs).
Proof.
  revert acc. induction pairs as [|kv pairs IH]; intros acc; simpl.
  - by rewrite app_nil_r.
  - rewrite IH, filter_cons. case_decide as Hk.
    + rewrite decide_False by (by intros Hn). done.
    + rewrite decide_True by done. by rewrite fmap_cons, <- app_assoc.
Qed.

Lemma collect_values_filter (prefix : string) (pairs : list KVPair) :
  collect_values prefix pairs = Value <$> filter (λ kv, Key kv ≠ prefix) pairs.
Proof. unfold collect_values. by rewrite collect_values_from. Qed.


Lemma GetRange_error (w : World B) prefix pairs meta e b :
  kv_list (partialFormat prefix) None (backend w) = ((pairs, meta, Some e), b) →
  (GetRange prefix w).1 = Val ([], Some e).
Proof. intros E. unfold GetRange. by erewrite bind_val by (apply api_run, E). Qed.

End ReadFacts.


(** C7: when the backend read fails with a connectivity error, [Exists]
    does not surface it: the error is dropped and the call reports
    [(true, nil)]. *)
Theorem Exists_hides_backend_error :
  let e := BackendError "connection refused" in
  let w := fresh_world [ReplyGet None None (Some e)] in
  (Get "/k" w).1 = Val ([], 0%N, Some e)
  ∧ (Exists "/k" w).1 = Val (true, None)
  ∧ (Exists "/k" w).1 ≠ Val (false, Some e).
Proof.
  intros e w.
  pose proof (Exists_backend_error w "/k" None None e [] eq_refl) as HE.
  rewrite HE by done. split; [reflexivity|done].
Qed.

(** ** Cancelling *)

Section CancelFacts.
Context `{!KeyFormat} `{!Backend B}.

Lemma CancelWatch_unregistered (w : World B) key :
  watches (store w) !! partialFormat key = None →
  CancelWatch key w = (Val (Some ErrWatchDoesNotExist), w).
Proof. intros E. unfold CancelWatch. run_monad. by rewrite E. Qed.

(** A registered key, whatever it is bound to, stays in the registry. *)
Lemma CancelWatch_registered (w : World B) key x :
  watches (store w) !! partialFormat key = Some x →
  CancelWatch key w =
    (Val None,
     set_store (set_watches (<[partialFormat key := None]> (watches (store w))) (store w)) w).
Proof. intros E. unfold CancelWatch. run_monad. by rewrite E. Qed.

Lemma CancelWatch_fails_iff (w : World B) key :
  (CancelWatch key w).1 = Val (Some ErrWatchDoesNotExist)
  ↔ watches (store w) !! partialFormat key = None.
Proof.
  split.
  - destruct (watches (store w) !! partialFormat key) as [x|] eqn:E; [|done].
    by rewrite (CancelWatch_registered _ _ _ E).
  - intros E. by rewrite CancelWatch_unregistered.
Qed.

Lemma CancelWatch_heap (w : World B) key : heap (CancelWatch key w).2 = heap w.
Proof.
  destruct (watches (store w) !! partialFormat key) as [x|] eqn:E.
  - by rewrite (CancelWatch_registered _ _ _ E).
  - by rewrite CancelWatch_unregistered.
Qed.

End CancelFacts.

(** C5: a second [CancelWatch] on a target that was cancelled
    successfully does not fail with [ErrWatchDoesNotExist]: the first
    call binds the key to [nil] instead of removing it, so the key is
    still in the registry and the second call succeeds too. *)
Theorem CancelWatch_twice :
  let w := mkWorld (test_store ∅ {["k" := Some 0%nat]}) [mkWatch 7 1000 0]
             ([] : list reply) [] in
  let first := CancelWatch "/k" w in
  let second := CancelWatch "/k" first.2 in
  first.1 = Val None
  ∧ watches (store first.2) !! "k" = Some None
  ∧ "k" ∈ dom (watches (store first.2))
  ∧ second.1 = Val None
  ∧ second.1 ≠ Val (Some ErrWatchDoesNotExist).
Proof.
  simpl.
  rewrite (CancelWatch_registered _ "/k" (Some 0%nat)) by reflexivity. simpl.
  rewrite (CancelWatch_registered _ "/k" None) by (by vm_compute).
  repeat split; done.
Qed.

(** ** Construction *)

Section ConstructionFacts.
Context `{!ConsulAPI}.




End ConstructionFacts.

(** ** Watching *)

Lemma cursor_of_cons (x y : N) (ys : list N) : cursor_of x (y :: ys) = cursor_of y ys.
Proof. unfold cursor_of. rewrite last_cons. by destruct (last ys). Qed.

Lemma Sorted_snoc_last (x v : N) (xs : list N) :
  Sorted N.le (x :: xs) → (cursor_of x xs ≤ v)%N → Sorted N.le (x :: xs ++ [v]).
Proof.
  revert x. induction xs as [|y ys IH]; intros x Hs Hv.
  - simpl. repeat constructor. exact Hv.
  - apply Sorted_inv in Hs as [Hs Hxy]. apply HdRel_inv in Hxy.
    simpl. constructor; [|by constructor].
    apply IH; [done|]. by rewrite <- (cursor_of_cons x).
Qed.

Lemma cursor_of_snoc (d v : N) (l : list N) : cursor_of d (l ++ [v]) = v.
Proof. unfold cursor_of. by rewrite last_snoc. Qed.

Section HistoryFacts.
Implicit Types h : list hevent.

Lemma polled_at_app l h1 h2 : polled_at l (h1 ++ h2) = polled_at l h1 ++ polled_at l h2.
Proof. apply omap_app. Qed.

Lemma polled_app h1 h2 : polled (h1 ++ h2) = polled h1 ++ polled h2.
Proof. apply omap_app. Qed.

Lemma poll_errors_app h1 h2 : poll_errors (h1 ++ h2) = poll_errors h1 ++ poll_errors h2.
Proof. apply omap_app. Qed.

Lemma notified_app h1 h2 : notified (h1 ++ h2) = notified h1 ++ notified h2.
Proof. apply omap_app. Qed.

Lemma refreshes_app h1 h2 : refreshes (h1 ++ h2) = refreshes h1 ++ refreshes h2.
Proof. apply omap_app. Qed.

Lemma refresh_errors_app h1 h2 :
  refresh_errors (h1 ++ h2) = refresh_errors h1 ++ refresh_errors h2.
Proof. apply omap_app. Qed.

Lemma answers_not_below_app h1 h2 :
  answers_not_below (h1 ++ h2) ↔ answers_not_below h1 ∧ answers_not_below h2.
Proof. apply Forall_app. Qed.

End HistoryFacts.

#[local] Arguments polled_at _ !_ /.
#[local] Arguments polled !_ /.
#[local] Arguments poll_errors !_ /.
#[local] Arguments notified !_ /.
#[local] Arguments refreshes !_ /.
#[local] Arguments refresh_errors !_ /.

(** Split the history at the events a step has appended. *)
Ltac split_history :=
  rewrite ?polled_at_app, ?polled_app, ?poll_errors_app, ?notified_app, ?refreshes_app,
    ?refresh_errors_app, ?length_app;
  simpl; rewrite ?app_nil_r.

Section WatchFacts.
Context `{!KeyFormat} `{!Backend B}.

Lemma api_frame {A} (c : call) (f : B → A * B) (w w' : World B) (r : res A) :
  api c f w = (r, w') →
  store w' = store w ∧ heap w' = heap w ∧ ∃ a, r = Val a ∧ f (backend w) = (a, backend w').
Proof.
  unfold api. destruct (f (backend w)) as [a b]. intros [= <- <-]. eauto.
Qed.

Lemma Get_frame (key : string) (w : World B) :
  store (Get key w).2 = store w ∧ heap (Get key w).2 = heap w.
Proof.
  destruct (kv_get (partialFormat key) None (backend w)) as [[[kv meta] err] b] eqn:E.
  rewrite (Get_run _ _ _ _ _ _ E). simpl.
  destruct err; [done|]. destruct kv; [|done]. by destruct meta.
Qed.

Lemma GetRange_frame (prefix : string) (w : World B) :
  store (GetRange prefix w).2 = store w ∧ heap (GetRange prefix w).2 = heap w.
Proof.
  destruct (kv_list (partialFormat prefix) None (backend w)) as [[[pairs meta] err] b] eqn:E.
  unfold GetRange. erewrite bind_val by (apply api_run, E). by destruct err.
Qed.

Lemma refresh_frame (c : watch_call) (w : World B) :
  store (refresh c w).2 = store w ∧ heap (refresh c w).2 = heap w.
Proof.
  unfold refresh. destruct (kind c).
  - pose proof (Get_frame (target c) w) as HG.
    unfold mbind, M_bind. destruct (Get (target c) w) as [[[[entry idx] err]|msg] w']; done.
  - apply GetRange_frame.
Qed.


Lemma start_invariant (w : World B) : invariant w (start w).
Proof.
  split; simpl; try done.
  - intros l watch E. unfold initial_cursor. by rewrite E.
  - intros _ l. repeat constructor.
Qed.

Lemma main_step_invariant (c : watch_call) (w0 : World B) (σ σ' : System B) :
  invariant w0 σ → main_step c σ = Some σ' → invariant w0 σ'.
Proof.
  intros [Istart Igrow Ibeyond Icursor Iwait Isorted Inotif Irefr Ifail Iclosed Inil].
  unfold main_step. destruct (main σ) eqn:Hm; simpl in *.
  - intros [= <-]. specialize (Istart eq_refl).
    rewrite Istart in *. split; simpl; try done.
    intros Hc. by specialize (Iclosed Hc).
  - intros [= <-]. split; simpl; try done.
    all: rewrite ?length_app; simpl.
    + lia.
    + intros l Hl. apply Ibeyond. lia.
    + intros l watch Hl. apply lookup_app_Some in Hl as [Hl|[Hge Hl]].
      * by apply Icursor.
      * apply list_lookup_singleton_Some in Hl as [Hl <-]. simpl.
        rewrite Ibeyond by done. unfold cursor_of, initial_cursor. simpl.
        rewrite lookup_ge_None_2 by lia. done.
    + intros l option Hq. destruct (Iwait _ _ Hq) as (watch & Hl & Hw).
      exists watch. split; [|done]. by apply lookup_app_l_Some.
  - destruct (closed σ) eqn:Hc; [|done]. intros [= <-].
    split; simpl; try done.
  - pose proof (refresh_frame c (world σ)) as [Hs Hh].
    destruct (refresh c (world σ)) as [[[values [e|]]|msg] w'] eqn:Hr;
      simpl in Hs, Hh; intros [= <-]; split; simpl; rewrite ?Hh; try done.
    all: intros; split_history; try done.
    all: try (by apply Ibeyond).
    all: try (by apply Icursor).
    all: try lia.
    all: try (by rewrite Ifail).
    all: match goal with
         | Ha : answers_not_below (_ ++ _) |- _ =>
             apply answers_not_below_app in Ha as [Ha _]; by apply Isorted
         end.
  - intros [= <-]. split; simpl; try done.
  - done.
Qed.

Lemma poller_step_invariant (c : watch_call) (w0 : World B) (σ σ' : System B) :
  invariant w0 σ → poller_step c σ = Some σ' → invariant w0 σ'.
Proof.
  intros [Istart Igrow Ibeyond Icursor Iwait Isorted Inotif Irefr Ifail Iclosed Inil].
  unfold poller_step. destruct (poller σ) as [| |l0 opt|v| |] eqn:Hq; simpl in *; try done.
  - (* the lookup *)
    destruct (watches (store (world σ)) !! target c) as [[l|]|] eqn:Hk.
    + destruct (heap (world σ) !! l) as [watch|] eqn:Hl; [|done].
      intros [= <-]. split; simpl; try done.
      * intros Hm. by specialize (Istart Hm).
      * intros l' option [= <- <-]. by exists watch.
      * intros Hc. by specialize (Iclosed Hc).
    + intros [= <-]. split; simpl; done.
    + intros [= <-]. split; simpl; try done.
      * intros Hm. by specialize (Istart Hm).
      * intros Hc. by specialize (Iclosed Hc).
  - (* the answer of the long-poll *)
    destruct (Iwait _ _ eq_refl) as (watch0 & Hl0 & Hw0).
    destruct (api _ _ (world σ)) as [r w'] eqn:Ha.
    apply api_frame in Ha as (Hs & Hh & [[kv meta] err] & -> & Hb).
    destruct meta as [meta|], err as [e|].
    1, 3: intros [= <-]; split; simpl; rewrite ?Hh; try done;
      intros; split_history; try done;
      [ by specialize (Istart ltac:(done))
      | by apply Ibeyond
      | by apply Icursor
      | match goal with
        | Ha : answers_not_below (_ ++ _) |- _ =>
            apply answers_not_below_app in Ha as [Ha _]; by apply Isorted
        end
      | by rewrite Inotif, app_nil_r
      | lia
      | by specialize (Iclosed ltac:(done)) ].
    + rewrite Hh, Hl0. intros [= <-]. split; simpl; rewrite ?length_insert; try done.
      * intros Hm. by specialize (Istart Hm).
      * intros l Hl. split_history. pose proof (lookup_lt_Some _ _ _ Hl0).
        rewrite decide_False by lia. rewrite app_nil_r. by apply Ibeyond.
      * intros l watch Hl. split_history. destruct (decide (l0 = l)) as [->|Hne].
        -- rewrite list_lookup_insert_eq in Hl by (by eapply lookup_lt_Some).
           injection Hl as <-. simpl. by rewrite cursor_of_snoc.
        -- rewrite list_lookup_insert_ne in Hl by done. rewrite app_nil_r.
           by apply Icursor.
      * intros Ha l. apply answers_not_below_app in Ha as [Ha Hv].
        unfold answers_not_below in Hv. rewrite Forall_singleton in Hv. split_history.
        destruct (decide (l0 = l)) as [->|Hne].
        -- apply Sorted_snoc_last; [by apply Isorted|].
           rewrite <- (Icursor _ _ Hl0), <- Hw0. exact Hv.
        -- rewrite app_nil_r. by apply Isorted.
      * split_history. by rewrite Inotif, app_nil_r.
      * split_history. lia.
      * by split_history.
      * intros Hc. by specialize (Iclosed Hc).
    + intros [= <-]. split; simpl; rewrite ?Hh; done.
  - (* close(ch) *)
    intros [= <-]. split; simpl; try done.
    intros Hm. by specialize (Istart Hm).
Qed.

Lemma step_invariant (c : watch_call) (w0 : World B) (ev : event) (σ σ' : System B) :
  invariant w0 σ → step c ev σ = Some σ' → invariant w0 σ'.
Proof.
  intros I. unfold step. destruct (panicked σ); [done|].
  destruct ev as [| | |key].
  - by apply main_step_invariant.
  - by apply poller_step_invariant.
  - destruct I as [Istart Igrow Ibeyond Icursor Iwait Isorted Inotif Irefr Ifail Iclosed Inil].
    destruct (main σ) eqn:Hm; try done. destruct (poller σ) eqn:Hq; try done.
    intros [= <-]. split; simpl in *; try done.
    all: intros; split_history; try done.
    + by apply Ibeyond.
    + by apply Icursor.
    + match goal with
      | Ha : answers_not_below (_ ++ _) |- _ =>
          apply answers_not_below_app in Ha as [Ha _]; by apply Isorted
      end.
    + lia.
    + by specialize (Iclosed ltac:(done)).
  - pose proof (CancelWatch_heap (world σ) key) as Hh.
    destruct (CancelWatch key (world σ)) as [[r|msg] w'] eqn:Hc; simpl in Hh;
      intros [= <-];
      destruct I as [Istart Igrow Ibeyond Icursor Iwait Isorted Inotif Irefr Ifail Iclosed Inil];
      split; simpl; rewrite ?Hh; try done.
    all: intros; split_history; try done.
    + by apply Ibeyond.
    + by apply Icursor.
    + match goal with
      | Ha : answers_not_below (_ ++ _) |- _ =>
          apply answers_not_below_app in Ha as [Ha _]; by apply Isorted
      end.
    + lia.
Qed.

Lemma run_invariant (c : watch_call) (w0 : World B) (evs : list event) (σ : System B) :
  invariant w0 σ → invariant w0 (run c evs σ).
Proof.
  revert σ. induction evs as [|ev evs IH]; intros σ I; [done|].
  simpl. destruct (step c ev σ) as [σ'|] eqn:Hs.
  - apply IH. by eapply step_invariant.
  - by apply IH.
Qed.

Lemma reachable_invariant (c : watch_call) (w : World B) (evs : list event) :
  invariant w (run c evs (start w)).
Proof. apply run_invariant, start_invariant. Qed.

(** A concurrent [CancelWatch] rebinds the registry slot and nothing
    else: the goroutine stays where it is, in particular in its
    long-poll. *)
Lemma cancel_leaves_poll_in_flight (c : watch_call) (key : string) (σ σ' : System B) :
  step c (OtherCancel key) σ = Some σ' →
  poller σ' = poller σ ∧ main σ' = main σ ∧ closed σ' = closed σ
  ∧ heap (world σ') = heap (world σ).
Proof.
  unfold step. destruct (panicked σ); [done|].
  pose proof (CancelWatch_heap (world σ) key) as Hh.
  destruct (CancelWatch key (world σ)) as [[r|msg] w']; by intros [= <-].
Qed.

(** After a cancel the goroutine finds the key bound to [nil] at its
    next lookup, and the dereference of the nil [*Watch] panics: the
    branch that closes the channel is not taken. *)
Lemma cancelled_lookup_panics (c : watch_call) (key : string) (σ : System B) :
  panicked σ = false → poller σ = PLookup →
  partialFormat key = target c →
  is_Some (watches (store (world σ)) !! target c) →
  let σ' := run c [OtherCancel key; RunPoller] σ in
  panicked σ' = true ∧ closed σ' = closed σ ∧ poller σ' = PLookup.
Proof.
  intros Hp Hq Hk [x Hx] σ'.
  assert (σ' =
    mkSystem
      (set_store (set_watches (<[target c := None]> (watches (store (world σ))))
                    (store (world σ))) (world σ))
      (main σ) PLookup (closed σ) true (history σ ++ [Cancelled key None])) as ->.
  { subst σ'. simpl. unfold step at 1. rewrite Hp. rewrite <- Hk in Hx |- *.
    rewrite (CancelWatch_registered _ _ _ Hx).
    unfold step. simpl. rewrite ?Hp. unfold poller_step. simpl. rewrite ?Hq.
    by rewrite <- Hk, lookup_insert_eq. }
  done.
Qed.

(** Once the call has returned, nothing changes its result. *)
Lemma step_returned (c : watch_call) (ev : event) (σ σ' : System B) r :
  main σ = MReturned r → step c ev σ = Some σ' → main σ' = MReturned r.
Proof.
  intros Hm. unfold step. destruct (panicked σ); [done|].
  destruct ev as [| | |key].
  - unfold main_step. by rewrite Hm.
  - unfold poller_step. destruct (poller σ) as [| |l opt|v| |]; try done.
    + destruct (watches _ !! _) as [[l|]|]; [destruct (heap _ !! _)|..];
        try done; by intros [= <-].
    + destruct (api _ _ _) as [[[[kv [meta|]] [e|]]|msg] w']; try (by intros [= <-]).
      destruct (heap _ !! _); [|done]. by intros [= <-].
    + by intros [= <-].
  - by rewrite Hm.
  - destruct (CancelWatch _ _) as [[r'|msg] w']; by intros [= <-].
Qed.

Lemma run_returned (c : watch_call) (evs : list event) (σ : System B) r :
  main σ = MReturned r → main (run c evs σ) = MReturned r.
Proof.
  revert σ. induction evs as [|ev evs IH]; intros σ Hm; [done|].
  simpl. destruct (step c ev σ) as [σ'|] eqn:Hs; [|by apply IH].
  apply IH. by eapply step_returned.
Qed.

(** The read of the loop body fails: the caller binds the slot to [nil]
    and returns the error. *)
Lemma refresh_failure_returned (c : watch_call) (σ : System B) values e w' :
  panicked σ = false → main σ = MRefresh →
  refresh c (world σ) = (Val (values, Some e), w') →
  main (run c [RunMain; RunMain] σ) = MReturned (Some e).
Proof.
  intros Hp Hm Hr. simpl. unfold step at 1. rewrite Hp. unfold main_step at 1.
  rewrite Hm, Hr. unfold step. simpl. by rewrite Hp.
Qed.

(** The long-poll fails: the goroutine closes the channel and the caller
    leaves the loop with [nil]; the registry is not touched. *)
Lemma poll_failure_returns_nil (c : watch_call) (σ : System B) l option kv meta e b :
  panicked σ = false → poller σ = PWaiting l option → main σ = MReceive →
  kv_get (target c) (Some option) (backend (world σ)) = ((kv, meta, Some e), b) →
  let σ' := run c [RunPoller; RunPoller; RunMain] σ in
  main σ' = MReturned None
  ∧ poller σ' = PExited
  ∧ poll_errors (history σ') = poll_errors (history σ) ++ [e]
  ∧ store (world σ') = store (world σ).
Proof.
  intros Hp Hq Hm Hk σ'.
  assert (σ' =
    mkSystem
      (mkWorld (store (world σ)) (heap (world σ)) b
         (calls (world σ) ++ [CallGet (target c) (Some option)]))
      (MReturned None) PExited true false
      (history σ ++ [LongPoll l option (inl e)])) as ->.
  { subst σ'. simpl. unfold step at 1. rewrite Hp. unfold poller_step at 1.
    rewrite Hq. rewrite (api_run _ _ _ _ _ Hk).
    assert (∀ σ1 : System B,
              match meta with
              | Some _ | None => Some σ1
              end = Some σ1) as Hmeta by (by destruct meta).
    rewrite Hmeta. unfold step. simpl. rewrite Hp. simpl. by rewrite Hm. }
  simpl. by split_history.
Qed.

(** C1: a call of [Watch] or [WatchRange] that has returned gives back
    the error of its failed refresh read ([Get] or [GetRange]), and
    [nil], after the channel was closed, when no refresh read failed.
    When the refresh read fails the call returns that error.  When the
    long-poll read fails the goroutine stops and closes the channel, the
    call returns [nil] and the registry is as it was. *)
Theorem Watch_returns_refresh_error (c : watch_call) (w : World B) (evs : list event) :
  let σ := run c evs (start w) in
  (∀ r, main σ = MReturned r →
     r = head (refresh_errors (history σ)) ∧ (r = None → closed σ = true))
  ∧ (∀ values e w', panicked σ = false → main σ = MRefresh →
       refresh c (world σ) = (Val (values, Some e), w') →
       main (run c [RunMain; RunMain] σ) = MReturned (Some e))
  ∧ (∀ l option kv meta e b,
       panicked σ = false → poller σ = PWaiting l option → main σ = MReceive →
       kv_get (target c) (Some option) (backend (world σ)) = ((kv, meta, Some e), b) →
       let σ' := run c [RunPoller; RunPoller; RunMain] σ in
       main σ' = MReturned None
       ∧ poller σ' = PExited
       ∧ poll_errors (history σ') = poll_errors (history σ) ++ [e]
       ∧ store (world σ') = store (world σ)).
Proof.
  intros σ. split; [|split].
  - intros r Hm. destruct (reachable_invariant c w evs) as [_ _ _ _ _ _ _ _ Ifail _ Inil].
    fold σ in Ifail, Inil. rewrite Ifail, Hm. split.
    + by destruct r.
    + intros ->. by apply Inil.
  - intros values e w'. apply refresh_failure_returned.
  - intros l option kv meta e b. apply poll_failure_returns_nil.
Qed.

(** C2: the [LastIndex] of a [Watch] is the index reported by the latest
    successful long-poll on it (its initial value before the first), so
    it never decreases as long as every long-poll reports an index at
    least its [WaitIndex]; every index stored is sent on the channel
    once, in order; every notification received is followed by one
    refresh read before the next is received. *)
Theorem LastIndex_follows_long_polls (c : watch_call) (w : World B) (evs : list event) :
  let σ := run c evs (start w) in
  let h := history σ in
  (∀ l watch, heap (world σ) !! l = Some watch →
     LastIndex watch = cursor_of (initial_cursor w l) (polled_at l h))
  ∧ (answers_not_below h → ∀ l, Sorted N.le (initial_cursor w l :: polled_at l h))
  ∧ polled h = notified h ++ pending (poller σ)
  ∧ length (notified h) = (length (refreshes h) + refreshing (main σ))%nat.
Proof.
  intros σ h.
  by destruct (reachable_invariant c w evs) as [_ _ _ Icursor _ Isorted Inotif Irefr _ _ _].
Qed.

End WatchFacts.

(** ** Concrete runs *)

(** A run in which the refresh read fails, and one in which the
    long-poll fails. *)
Lemma Watch_returns_refresh_error_witness :
  let e := BackendError "connection refused" in
  let c := Watch_call "/k" 1000 in
  let w := fresh_world [ReplyGet None (Some (mkQueryMeta 5)) None; ReplyGet None None (Some e)] in
  let before := run c [RunMain; RunMain; RunPoller; RunPoller; Handoff] (start w) in
  let after := run c [RunMain; RunMain; RunPoller; RunPoller; Handoff; RunMain; RunMain] (start w) in
  let polling := run c [RunMain; RunMain; RunPoller] (start (fresh_world [ReplyGet None None (Some e)])) in
  (Some e = head (refresh_errors (history after)) ∧ (Some e = None → closed after = true))
  ∧ main (run c [RunMain; RunMain] before) = MReturned (Some e)
  ∧ main (run c [RunPoller; RunPoller; RunMain] polling) = MReturned None.
Proof.
  intros e c w before after polling. split; [|split].
  - destruct (Watch_returns_refresh_error c w
                [RunMain; RunMain; RunPoller; RunPoller; Handoff; RunMain; RunMain])
      as (H & _ & _).
    apply (H (Some e)). reflexivity.
  - destruct (Watch_returns_refresh_error c w
                [RunMain; RunMain; RunPoller; RunPoller; Handoff])
      as (_ & H & _).
    apply (H [[]] e (mkWorld (test_store ∅ {["k" := Some 0%nat]})
                       [mkWatch 5 1000 0] []
                       [CallGet "k" (Some (mkQueryOptions 0 1000)); CallGet "k" None]));
      reflexivity.
  - destruct (Watch_returns_refresh_error c (fresh_world [ReplyGet None None (Some e)])
                [RunMain; RunMain; RunPoller])
      as (_ & _ & H).
    apply (H 0%nat (mkQueryOptions 0 1000) None None e []); reflexivity.
Defined.

(** The long-poll fails with a backend error: the call returns [nil]
    for good and the watch is still registered. *)
Lemma Watch_swallows_poll_error :
  let e := BackendError "connection refused" in
  let c := Watch_call "/k" 1000 in
  let σ := run c [RunMain; RunMain; RunPoller; RunPoller; RunPoller; RunMain]
             (start (fresh_world [ReplyGet None None (Some e)])) in
  poll_errors (history σ) = [e]
  ∧ poller σ = PExited
  ∧ main σ = MReturned None
  ∧ main σ ≠ MReturned (Some e)
  ∧ watches (store (world σ)) !! "k" = Some (Some 0%nat)
  ∧ (∀ evs, main (run c evs σ) = MReturned None).
Proof.
  intros e c σ.
  assert (main σ = MReturned None) as Hm by reflexivity.
  repeat split; try reflexivity.
  - by rewrite Hm.
  - intros evs. by apply run_returned.
Qed.

(** A run with two long-polls, answered 5 and 7, and one refresh. *)
Lemma LastIndex_follows_long_polls_witness :
  let c := Watch_call "/k" 1000 in
  let kv := mkKVPair "k" 7 [Byte.x01] "" in
  let w := fresh_world [ReplyGet (Some kv) (Some (mkQueryMeta 5)) None;
                        ReplyGet (Some kv) (Some (mkQueryMeta 5)) None;
                        ReplyGet (Some kv) (Some (mkQueryMeta 7)) None] in
  let σ := run c [RunMain; RunMain; RunPoller; RunPoller; Handoff; RunMain;
                  RunPoller; RunPoller] (start w) in
  heap (world σ) !! 0%nat = Some (mkWatch 7 1000 0)
  ∧ polled_at 0 (history σ) = [5%N; 7%N]
  ∧ LastIndex (mkWatch 7 1000 0) = cursor_of (initial_cursor w 0) (polled_at 0 (history σ))
  ∧ Sorted N.le (initial_cursor w 0 :: polled_at 0 (history σ))
  ∧ polled (history σ) = notified (history σ) ++ pending (poller σ)
  ∧ length (notified (history σ)) = (length (refreshes (history σ)) + refreshing (main σ))%nat.
Proof.
  intros c kv w σ.
  destruct (LastIndex_follows_long_polls c w
              [RunMain; RunMain; RunPoller; RunPoller; Handoff; RunMain;
               RunPoller; RunPoller]) as (H1 & H2 & H3 & H4).
  split; [reflexivity|]. split; [reflexivity|]. split; [|split; [|split]].
  - apply (H1 0%nat (mkWatch 7 1000 0)). reflexivity.
  - apply (H2 ltac:(repeat constructor; vm_compute; congruence) 0%nat).
  - exact H3.
  - exact H4.
Defined.

(** A run in which the index 5 is notified twice, and a run in which the
    cursor has moved to 7 before the read that follows the notification
    of 5. *)
Lemma LastIndex_notified_twice :
  let c := Watch_call "/k" 1000 in
  let kv := mkKVPair "k" 5 [Byte.x01] "" in
  let twice :=
    run c [RunMain; RunMain; RunPoller; RunPoller; Handoff; RunMain;
           RunPoller; RunPoller; Handoff; RunMain]
      (start (fresh_world [ReplyGet (Some kv) (Some (mkQueryMeta 5)) None;
                           ReplyGet (Some kv) (Some (mkQueryMeta 5)) None;
                           ReplyGet (Some kv) (Some (mkQueryMeta 5)) None;
                           ReplyGet (Some kv) (Some (mkQueryMeta 5)) None])) in
  let ahead :=
    run c [RunMain; RunMain; RunPoller; RunPoller; Handoff; RunPoller; RunPoller]
      (start (fresh_world [ReplyGet (Some kv) (Some (mkQueryMeta 5)) None;
                           ReplyGet (Some kv) (Some (mkQueryMeta 7)) None])) in
  (answers_not_below (history twice)
   ∧ notified (history twice) = [5%N; 5%N]
   ∧ ¬ NoDup (notified (history twice))
   ∧ refreshes (history twice) = [None; None])
  ∧ (notified (history ahead) = [5%N]
     ∧ refreshes (history ahead) = []
     ∧ LastIndex <$> heap (world ahead) !! 0%nat = Some 7%N).
Proof.
  intros c kv twice ahead. split; [split; [|split; [|split]]|].
  - repeat constructor; vm_compute; congruence.
  - reflexivity.
  - change (notified (history twice)) with [5%N; 5%N].
    intros Hd. apply NoDup_cons in Hd as [Hd _]. apply Hd. by left.
  - reflexivity.
  - repeat split; reflexivity.
Qed.


(** * Further properties of the operations *)

Section ReadContracts.
Context `{!KeyFormat} `{!Backend B}.

(** X1: [Get] makes one read of the formatted key.  It returns the
    backend's error when there is one, [ErrKeyNotFound] when the read
    succeeds without a pair, and the pair's value with the index of the
    metadata otherwise; it panics exactly when the backend hands back a
    pair, no error and no metadata. *)
Theorem Get_outcomes (w : World B) key kv meta err b :
  kv_get (partialFormat key) None (backend w) = ((kv, meta, err), b) →
  (∀ e, err = Some e → (Get key w).1 = Val ([], 0%N, Some e))
  ∧ (err = None → kv = None → (Get key w).1 = Val ([], 0%N, Some ErrKeyNotFound))
  ∧ (∀ p m, err = None → kv = Some p → meta = Some m →
       (Get key w).1 = Val (Value p, QLastIndex m, None))
  ∧ ((∃ msg, (Get key w).1 = Panic msg) ↔ err = None ∧ is_Some kv ∧ meta = None)
  ∧ (Get key w).2 =
      mkWorld (store w) (heap w) b (calls w ++ [CallGet (partialFormat key) None]).
Proof.
  intros E. rewrite (Get_run _ _ _ _ _ _ E). simpl.
  split; [|split; [|split; [|split; [split|]]]].
  - by intros e ->.
  - by intros -> ->.
  - by intros p m -> -> ->.
  - intros [msg Hp]. destruct err; [done|]. destruct kv; [|done].
    destruct meta; [done|]. eauto.
  - intros (-> & [p ->] & ->). by eexists.
  - destruct err; [done|]. destruct kv; [|done]. by destruct meta.
Qed.

(** X2: [Exists] performs the read of [Get] and nothing else.  Its
    answer is [(false, ErrKeyNotFound)] when the error of [Get] is
    [ErrKeyNotFound] and [(true, nil)] for every other result of [Get],
    so it never returns another error. *)
Theorem Exists_outcomes (w : World B) key :
  (Exists key w).2 = (Get key w).2
  ∧ (∀ value index err, (Get key w).1 = Val (value, index, err) →
       (Exists key w).1 =
         if decide (err = Some ErrKeyNotFound)
         then Val (false, Some ErrKeyNotFound) else Val (true, None))
  ∧ (∀ msg, (Get key w).1 = Panic msg → (Exists key w).1 = Panic msg)
  ∧ (∀ r e, (Exists key w).1 = Val (r, Some e) → r = false ∧ e = ErrKeyNotFound).
Proof.
  unfold Exists, mbind, M_bind.
  destruct (Get key w) as [[[[value index] err]|msg] w'] eqn:E; simpl.
  - destruct err as [e|]; [destruct (decide (e = ErrKeyNotFound)) as [->|Hne]|].
    + rewrite decide_True by done. simpl. split; [done|split; [|split]].
      * intros ??? [= <- <- <-]. by rewrite decide_True.
      * done.
      * by intros r e [= <- <-].
    + rewrite decide_False by (intros [_ ?]; congruence). simpl.
      split; [done|split; [|split]]; try done.
      intros ??? [= <- <- <-]. rewrite decide_False; [done|congruence].
    + rewrite decide_False by (by intros [? _]). simpl.
      split; [done|split; [|split]]; try done.
      intros ??? [= <- <- <-]. by rewrite decide_False.
  - split; [done|split; [|split]]; try done. by intros ? [= <-].
Qed.

(** X3: [GetRange] makes one listing of the formatted prefix and never
    panics.  A failed listing gives back that error and no value; a
    successful one gives back no error, at most one value per listed
    pair, and all the values in order when no pair has the key
    [prefix]. *)
Theorem GetRange_outcomes (w : World B) prefix pairs meta err b :
  kv_list (partialFormat prefix) None (backend w) = ((pairs, meta, err), b) →
  (∀ e, err = Some e → (GetRange prefix w).1 = Val ([], Some e))
  ∧ (err = None →
       ∃ values, (GetRange prefix w).1 = Val (values, None)
         ∧ (length values ≤ length pairs)%nat
         ∧ (Forall (λ kv, Key kv ≠ prefix) pairs → values = Value <$> pairs))
  ∧ (GetRange prefix w).2 =
      mkWorld (store w) (heap w) b (calls w ++ [CallList (partialFormat prefix)]).
Proof.
  intros E. unfold GetRange. erewrite bind_val by (apply api_run, E).
  repeat split.
  - by intros e ->.
  - intros ->. eexists. split; [done|]. rewrite collect_values_filter. split.
    + rewrite length_fmap. apply length_filter.
    + intros Hall. f_equal. clear E. induction pairs as [|kv pairs IH]; [done|].
      apply Forall_cons in Hall as [Hk Hall]. rewrite filter_cons, decide_True by done.
      by rewrite IH.
  - by destruct err.
Qed.

(** The writes [Put], [Delete], [DeleteRange], [AtomicPut] and
    [AtomicDelete] each make exactly one API call, on the formatted key,
    never panic, and leave the session map, the watch registry and the
    [Watch] objects as they were; the three plain writes return the
    backend's error as it is. *)
Theorem writes_frame (w : World B) key value old index :
  let after b c := mkWorld (store w) (heap w) b (calls w ++ [c]) in
  (∃ err b, kv_put (mkKVPair (partialFormat key) 0 value "") (backend w) = (err, b)
     ∧ Put key value w =
         (Val err, after b (CallPut (mkKVPair (partialFormat key) 0 value ""))))
  ∧ (∃ err b, kv_delete (partialFormat key) (backend w) = (err, b)
       ∧ Delete key w = (Val err, after b (CallDelete (partialFormat key))))
  ∧ (∃ err b, kv_delete_tree (partialFormat key) (backend w) = (err, b)
       ∧ DeleteRange key w = (Val err, after b (CallDeleteTree (partialFormat key))))
  ∧ (∃ r b, AtomicPut key old value index w =
       (Val r, after b (CallCAS (mkKVPair (partialFormat key) index value ""))))
  ∧ (∃ r b, AtomicDelete key old index w =
       (Val r, after b (CallDeleteCAS (mkKVPair (partialFormat key) index [] "")))).
Proof.
  intros after. subst after. split; [|split; [|split; [|split]]].
  - unfold Put, api. destruct (kv_put _ _) as [err b]. by exists err, b.
  - unfold Delete, api. destruct (kv_delete _ _) as [err b]. by exists err, b.
  - unfold DeleteRange, api. destruct (kv_delete_tree _ _) as [err b]. by exists err, b.
  - unfold AtomicPut, mbind, M_bind, api.
    destruct (kv_cas _ _) as [[[] [e|]] b]; by eexists _, b.
  - unfold AtomicDelete, mbind, M_bind, api.
    destruct (kv_delete_cas _ _) as [[[] [e|]] b]; by eexists _, b.
Qed.

End ReadContracts.

Section RegistryContracts.
Context `{!KeyFormat} `{!Backend B}.


(** X5: [Release] never adds or removes a key of the session map and
    never touches the registry.  For an unknown id it fails with
    [ErrSessionUndefined] without any API call; for an id bound to a
    live handle it calls [Destroy] once and returns [nil] whatever
    [Destroy] answers, the id staying in the map, bound to [nil]. *)
Theorem Release_outcomes (w : World B) id :
  let out := Release id w in
  dom (sessions (store out.2)) = dom (sessions (store w))
  ∧ watches (store out.2) = watches (store w)
  ∧ heap out.2 = heap w
  ∧ (sessions (store w) !! id = None →
       out = (Val (Some ErrSessionUndefined), w))
  ∧ (∀ h, sessions (store w) !! id = Some (Some h) →
       out.1 = Val None
       ∧ calls out.2 = calls w ++ [CallSessionDestroy id]
       ∧ backend out.2 = (session_destroy id (backend w)).2
       ∧ sessions (store out.2) !! id = Some None).
Proof.
  intros out. subst out.
  destruct (sessions (store w) !! id) as [[h|]|] eqn:E.
  - destruct (session_destroy id (backend w)) as [err b] eqn:D.
    rewrite (Release_tracked _ _ _ _ _ E D). simpl.
    split; [|split; [done|split; [done|split; [done|]]]].
    + apply dom_insert_lookup_L. eauto.
    + intros h' _. by rewrite lookup_insert_eq.
  - rewrite (Release_nil_handle _ _ E). done.
  - rewrite (Release_unknown _ _ E). done.
Qed.

(** [Acquire], by the answers of the backend. *)
Lemma Acquire_run (w : World B) key value :
  Acquire key value w =
    let '((id, err), b1) := session_create_no_checks (backend w) in
    match err with
    | Some e =>
        (Val ("", Some e), mkWorld (store w) (heap w) b1 (calls w ++ [CallSessionCreate]))
    | None =>
        let p := mkKVPair (partialFormat key) 0 value id in
        let '((work, err), b2) := kv_acquire p b1 in
        (Val (match err with
              | Some e => ("", Some e)
              | None => if work then (id, None) else ("", Some ErrCannotLock)
              end),
         mkWorld (set_sessions (<[id := Some SessionOf]> (sessions (store w))) (store w))
           (heap w) b2 (calls w ++ [CallSessionCreate; CallAcquire p]))
    end.
Proof.
  unfold Acquire, mbind, M_bind, api at 1.
  destruct (session_create_no_checks (backend w)) as [[id [e|]] b1]; [done|].
  run_monad. unfold api. simpl.
  destruct (kv_acquire _ b1) as [[work [e|]] b2]; simpl; rewrite <- app_assoc; [done|].
  by destruct work.
Qed.

(** X6: the three other outcomes of [Acquire].  When the session cannot
    be created the error is returned after that single call and the
    session map is unchanged; once the session exists its id is in the
    session map whatever the write does: a failed write returns the
    backend's error, an applied write returns the id. *)
Theorem Acquire_outcomes (w : World B) key value id err b1 :
  session_create_no_checks (backend w) = ((id, err), b1) →
  let p := mkKVPair (partialFormat key) 0 value id in
  let out := Acquire key value w in
  (∀ e, err = Some e →
     out = (Val ("", Some e),
            mkWorld (store w) (heap w) b1 (calls w ++ [CallSessionCreate])))
  ∧ (err = None →
       sessions (store out.2) = <[id := Some SessionOf]> (sessions (store w))
       ∧ watches (store out.2) = watches (store w)
       ∧ calls out.2 = calls w ++ [CallSessionCreate; CallAcquire p]
       ∧ (∀ work e, (kv_acquire p b1).1 = (work, Some e) → out.1 = Val ("", Some e))
       ∧ ((kv_acquire p b1).1 = (true, None) → out.1 = Val (id, None))).
Proof.
  intros C p out. subst p out. rewrite Acquire_run, C. split.
  - by intros e ->.
  - intros ->.
    destruct (kv_acquire (mkKVPair (partialFormat key) 0 value id) b1)
      as [[work e] b2] eqn:A.
    simpl. rewrite ?A. simpl.
    split; [done|split; [done|split; [done|split]]].
    + by intros ?? [= -> ->].
    + by intros [= -> ->].
Qed.

(** X7: a lock taken is a lock that can be released: after an [Acquire]
    that returned an id, [Release] of that id calls [Destroy] with it
    and returns [nil]. *)
Theorem Acquire_then_Release (w : World B) key value id :
  (Acquire key value w).1 = Val (id, None) →
  let w1 := (Acquire key value w).2 in
  (Release id w1).1 = Val None
  ∧ calls (Release id w1).2 = calls w1 ++ [CallSessionDestroy id]
  ∧ sessions (store (Release id w1).2) !! id = Some None.
Proof.
  intros HA w1.
  assert (sessions (store w1) !! id = Some (Some SessionOf)) as Hs.
  { subst w1. revert HA. rewrite Acquire_run.
    destruct (session_create_no_checks (backend w)) as [[id' [e|]] b1]; simpl.
    - by intros [= <-].
    - destruct (kv_acquire _ b1) as [[work [e|]] b2]; simpl.
      + by intros [= <-].
      + destruct work; [|by intros [= <-]].
        intros [= ->]. by rewrite lookup_insert_eq. }
  destruct (session_destroy id (backend w1)) as [err b] eqn:D.
  rewrite (Release_tracked _ _ _ _ _ Hs D). simpl.
  by rewrite lookup_insert_eq.
Qed.

End RegistryContracts.

Section ConstructionContracts.
Context `{!ConsulAPI}.





End ConstructionContracts.

Lemma delivered_app (h1 h2 : list hevent) :
  delivered (h1 ++ h2) = delivered h1 ++ delivered h2.
Proof. apply omap_app. Qed.

#[local] Arguments delivered !_ /.

Section WatchFootprint.
Context `{!KeyFormat} `{!Backend B}.

Lemma static_set_LastIndex (v : N) (watch : Watch) :
  static (set_LastIndex v watch) = static watch.
Proof. done. Qed.

Lemma static_insert (heap : list Watch) (l : nat) (v : N) (watch : Watch) :
  heap !! l = Some watch →
  static <$> <[l := set_LastIndex v watch]> heap = static <$> heap.
Proof.
  intros Hl. rewrite list_fmap_insert, static_set_LastIndex.
  apply list_insert_id. by rewrite list_lookup_fmap, Hl.
Qed.

(** The read of the loop body is one call, of the kind of the watch; a
    watch on a key hands exactly one value to the callback. *)
Lemma refresh_footprint (c : watch_call) (w : World B) :
  (∃ x, calls (refresh c w).2 = calls w ++ [x] ∧ watch_read c x)
  ∧ (kind c = OfKey → ∀ values err, (refresh c w).1 = Val (values, err) →
       length values = 1%nat).
Proof.
  unfold refresh. destruct (kind c) eqn:Hk.
  - destruct (kv_get (partialFormat (target c)) None (backend w))
      as [[[kv meta] err] b] eqn:E.
    unfold mbind, M_bind. rewrite (Get_run _ _ _ _ _ _ E). simpl. split.
    + exists (CallGet (partialFormat (target c)) None).
      split; [|done]. destruct err; [done|]. destruct kv; [|done]. by destruct meta.
    + intros _ values err'. destruct err; [by intros [= <- <-]|].
      destruct kv; [|by intros [= <- <-]]. destruct meta; [|done].
      by intros [= <- <-].
  - destruct (kv_list (partialFormat (target c)) None (backend w))
      as [[[pairs meta] err] b] eqn:E.
    unfold GetRange. erewrite bind_val by (apply api_run, E). split; [|done].
    exists (CallList (partialFormat (target c))). split; [|done]. by destruct err.
Qed.

Lemma start_footprint (c : watch_call) (w : World B) : footprint c w (start w).
Proof.
  split; simpl; try done.
  - exists []. by rewrite app_nil_r.
  - by rewrite app_nil_r.
  - by rewrite union_empty_r_L.
Qed.

Lemma step_footprint (c : watch_call) (w0 : World B) (ev : event) (σ σ' : System B) :
  footprint c w0 σ → step c ev σ = Some σ' → footprint c w0 σ'.
Proof.
  intros [(new & Hcalls & Hnew) Hdel Hone Hheap Hsess [Hcfg Hcl] Hkeys].
  unfold step. destruct (panicked σ); [done|].
  destruct ev as [| | |key].
  - unfold main_step. destruct (main σ) eqn:Hm; simpl in *.
    + intros [= <-]. split; simpl; eauto.
    + intros [= <-]. split; simpl; eauto.
      * by rewrite fmap_app, Hheap, app_nil_r.
      * rewrite dom_insert_L, Hkeys, union_empty_r_L. apply (comm_L (∪)).
    + destruct (closed σ); [|done]. intros [= <-]. split; simpl; eauto.
    + pose proof (refresh_frame c (world σ)) as [Hs Hh].
      pose proof (refresh_footprint c (world σ)) as [(x & Hx & Hr) Hlen].
      destruct (refresh c (world σ)) as [[[values [e|]]|msg] w'] eqn:Hr';
        simpl in Hs, Hh, Hx; intros [= <-]; split; simpl;
        rewrite ?Hs, ?Hh; eauto.
      all: try (exists (new ++ [x]); rewrite Hx, Hcalls, app_assoc;
                split; [done|]; apply Forall_app; split; [done|by constructor]).
      all: rewrite ?delivered_app, ?refreshes_app, ?refresh_errors_app, ?length_app;
        simpl; rewrite ?app_nil_r; try lia.
      all: intros Hk; try (by apply Hone).
      apply Forall_app. split; [by apply Hone|].
      constructor; [|done]. by eapply Hlen.
    + intros [= <-]. split; simpl; eauto.
      rewrite dom_insert_lookup_L; [done|]. apply elem_of_dom. rewrite Hkeys.
      apply elem_of_union_r. by apply elem_of_singleton.
    + done.
  - unfold poller_step. destruct (poller σ) as [| |l opt|v| |]; simpl in *; try done.
    + destruct (watches _ !! _) as [[l|]|]; [destruct (heap _ !! _)|..];
        try done; intros [= <-]; split; simpl; eauto.
    + destruct (api _ _ (world σ)) as [r w'] eqn:Ha.
      pose proof Ha as Hc. unfold api in Hc.
      destruct (kv_get _ _ _) as [r0 b0]. injection Hc as <- <-. simpl in *.
      assert (∃ new', calls (world σ) ++ [CallGet (target c) (Some opt)] = calls w0 ++ new'
                      ∧ Forall (watch_read c) new') as Hcalls'.
      { exists (new ++ [CallGet (target c) (Some opt)]).
        rewrite Hcalls, app_assoc. split; [done|].
        apply Forall_app. split; [done|]. by constructor. }
      destruct r0 as [[kv [meta|]] [e|]].
      1, 3, 4: intros [= <-]; split; simpl; eauto;
        rewrite ?delivered_app, ?refreshes_app, ?refresh_errors_app; simpl;
        rewrite ?app_nil_r; eauto.
      destruct (heap (world σ) !! l) as [watch|] eqn:Hl; [|done].
      intros [= <-]. split; simpl; eauto.
      all: rewrite ?delivered_app, ?refreshes_app, ?refresh_errors_app; simpl;
        rewrite ?app_nil_r; eauto.
      by rewrite static_insert.
    + intros [= <-]. split; simpl; eauto.
  - destruct (main σ) eqn:Hm; try done. destruct (poller σ); try done.
    intros [= <-]. split; simpl in *; eauto.
    all: rewrite ?delivered_app, ?refreshes_app, ?refresh_errors_app; simpl;
      rewrite ?app_nil_r; eauto.
  - pose proof (CancelWatch_heap (world σ) key) as Hh.
    assert (store (CancelWatch key (world σ)).2 = store (world σ)
            ∨ store (CancelWatch key (world σ)).2 =
                set_watches (<[partialFormat key := None]> (watches (store (world σ))))
                  (store (world σ))
              ∧ is_Some (watches (store (world σ)) !! partialFormat key)) as Hst.
    { destruct (watches (store (world σ)) !! partialFormat key) as [x|] eqn:E.
      - right. rewrite (CancelWatch_registered _ _ _ E). eauto.
      - left. by rewrite CancelWatch_unregistered. }
    assert (calls (CancelWatch key (world σ)).2 = calls (world σ)) as Hc.
    { destruct (watches (store (world σ)) !! partialFormat key) as [x|] eqn:E.
      - by rewrite (CancelWatch_registered _ _ _ E).
      - by rewrite CancelWatch_unregistered. }
    destruct (CancelWatch key (world σ)) as [[r|msg] w'] eqn:HC; simpl in *;
      intros [= <-]; split; simpl; rewrite ?Hh, ?Hc; eauto.
    all: rewrite ?delivered_app, ?refreshes_app, ?refresh_errors_app; simpl;
      rewrite ?app_nil_r; eauto.
    all: destruct Hst as [->|[-> Hin]]; simpl; eauto.
    all: by rewrite dom_insert_lookup_L.
Qed.

Lemma run_footprint (c : watch_call) (w0 : World B) (evs : list event) (σ : System B) :
  footprint c w0 σ → footprint c w0 (run c evs σ).
Proof.
  revert σ. induction evs as [|ev evs IH]; intros σ F; [done|].
  simpl. destruct (step c ev σ) as [σ'|] eqn:Hs.
  - apply IH. by eapply step_footprint.
  - by apply IH.
Qed.

Lemma reachable_footprint (c : watch_call) (w : World B) (evs : list event) :
  footprint c w (run c evs (start w)).
Proof. apply run_footprint, start_footprint. Qed.

End WatchFootprint.

Section WatchContracts.
Context `{!KeyFormat} `{!Backend B}.

(** X10: a watch only reads.  Every API call made while [Watch] or
    [WatchRange] runs, under any schedule and with [CancelWatch] called
    concurrently, is the long-poll [Get] on the formatted key or the
    read of the loop body, a [Get] or a [List] on the key formatted
    once more; nothing is written, deleted, locked or destroyed. *)
Theorem Watch_only_reads (c : watch_call) (w : World B) (evs : list event) :
  ∃ new, calls (world (run c evs (start w))) = calls w ++ new
    ∧ Forall (watch_read c) new
    ∧ Forall (λ x, (∃ k q, x = CallGet k q) ∨ (∃ p, x = CallList p)) new.
Proof.
  destruct (reachable_footprint c w evs) as [(new & Hc & Hn) _ _ _ _ _ _].
  exists new. split; [done|]. split; [done|].
  eapply Forall_impl; [exact Hn|]. intros [k [q|]| | | | | | | | |]; simpl; try done; eauto.
Qed.

(** X11: the callback is called once for each refresh read that
    succeeds, at most once for each notification, and a notification is
    one successful long-poll; at most one refresh read fails; a watch on
    a single key always hands the callback exactly one value. *)
Theorem callbacks_bounded (c : watch_call) (w : World B) (evs : list event) :
  let h := history (run c evs (start w)) in
  (length (delivered h) + length (refresh_errors h))%nat = length (refreshes h)
  ∧ (length (refresh_errors h) ≤ 1)%nat
  ∧ (length (delivered h) ≤ length (notified h))%nat
  ∧ (length (notified h) ≤ length (polled h))%nat
  ∧ (kind c = OfKey → Forall (λ values, length values = 1%nat) (delivered h)).
Proof.
  intros h. subst h.
  destruct (reachable_footprint c w evs) as [_ Hdel Hone _ _ _ _].
  destruct (reachable_invariant c w evs) as [_ _ _ _ _ _ Inotif Irefr Ifail _ _].
  split; [done|]. split; [|split; [|split; [|done]]].
  - rewrite Ifail. destruct (main _) as [| | | |e|[e|]]; simpl; lia.
  - lia.
  - rewrite Inotif, length_app. lia.
Qed.

(** X12: of a [Watch] object only [LastIndex] ever changes.  Under any
    schedule the objects that existed when the call started keep their
    [Interval] and [EventChan], and the call adds exactly one object,
    with the heartbeat as [Interval], when it registers. *)
Theorem Watch_changes_only_LastIndex (c : watch_call) (w : World B) (evs : list event) :
  let σ := run c evs (start w) in
  static <$> heap (world σ)
  = (static <$> heap w) ++ (if registered (main σ) then [(heartbeat c, 0%nat)] else []).
Proof. intros σ. by destruct (reachable_footprint c w evs). Qed.

(** X13: a watch never removes a key of the registry and never touches
    the session map or the configuration: under any schedule, also after
    the call has returned or the watch was cancelled, the keys of the
    registry are those it started with and, once registered, the
    target. *)
Theorem Watch_keeps_registry_keys (c : watch_call) (w : World B) (evs : list event) :
  let σ := run c evs (start w) in
  dom (watches (store (world σ)))
  = dom (watches (store w)) ∪ (if registered (main σ) then {[target c]} else ∅)
  ∧ sessions (store (world σ)) = sessions (store w)
  ∧ config (store (world σ)) = config (store w)
  ∧ client (store (world σ)) = client (store w).
Proof. intros σ. by destruct (reachable_footprint c w evs) as [_ _ _ _ ? [? ?] ?]. Qed.

(** X14: the goroutine is started before the watch is registered.  When
    the target is not in the registry and the goroutine looks it up
    first, it closes the channel at once: the call returns [nil] without
    a single read of the backend, and leaves the watch registered. *)
Theorem Watch_lookup_before_registration (c : watch_call) (w : World B) :
  watches (store w) !! target c = None →
  let σ := run c [RunMain; RunPoller; RunPoller; RunMain; RunMain] (start w) in
  main σ = MReturned None
  ∧ poller σ = PExited
  ∧ calls (world σ) = calls w ∧ backend (world σ) = backend w
  ∧ history σ = []
  ∧ watches (store (world σ)) !! target c = Some (Some (length (heap w)))
  ∧ heap (world σ) = heap w ++ [mkWatch 0 (heartbeat c) 0].
Proof.
  intros Hk σ.
  assert (σ =
    mkSystem
      (set_store (set_watches (<[target c := Some (length (heap w))]> (watches (store w)))
                    (store w))
         (set_heap (heap w ++ [mkWatch 0 (heartbeat c) 0]) w))
      (MReturned None) PExited true false []) as ->.
  { subst σ. simpl. unfold step. simpl. unfold poller_step. simpl. by rewrite Hk. }
  simpl. by rewrite lookup_insert_eq.
Qed.

(** X15: when the refresh read has failed and the goroutine is at the
    top of its loop, the caller returns the error and the goroutine then
    finds the key bound to [nil] and panics. *)
Theorem failed_refresh_then_lookup_panics (c : watch_call) (σ : System B) e :
  panicked σ = false → main σ = MTeardown e → poller σ = PLookup →
  let σ' := run c [RunMain; RunPoller] σ in
  main σ' = MReturned (Some e) ∧ panicked σ' = true.
Proof.
  intros Hp Hm Hq σ'.
  assert (σ' =
    mkSystem
      (set_store (set_watches (<[target c := None]> (watches (store (world σ))))
                    (store (world σ))) (world σ))
      (MReturned (Some e)) PLookup (closed σ) true (history σ)) as ->.
  { subst σ'. simpl. unfold step at 1. rewrite Hp. unfold main_step. rewrite Hm.
    unfold step. simpl. rewrite ?Hp. unfold poller_step. simpl. rewrite ?Hq.
    by rewrite lookup_insert_eq. }
  done.
Qed.

(** X16: a goroutine blocked in [ch <- watch.LastIndex] when the call
    returns is never released: no schedule moves it. *)
Theorem blocked_sender_is_leaked (c : watch_call) (evs : list event) (σ : System B) r v :
  main σ = MReturned r → poller σ = PSending v →
  poller (run c evs σ) = PSending v ∧ closed (run c evs σ) = closed σ.
Proof.
  revert σ. induction evs as [|ev evs IH]; intros σ Hm Hq; [done|].
  simpl. destruct (step c ev σ) as [σ'|] eqn:Hs; [|by apply IH].
  assert (main σ' = MReturned r ∧ poller σ' = PSending v ∧ closed σ' = closed σ)
    as (Hm' & Hq' & Hc').
  { split; [by eapply step_returned|].
    revert Hs. unfold step. destruct (panicked σ); [done|].
    destruct ev as [| | |key].
    - unfold main_step. by rewrite Hm.
    - unfold poller_step. by rewrite Hq.
    - by rewrite Hm.
    - destruct (CancelWatch _ _) as [[r'|msg] w']; by intros [= <-]. }
  rewrite <- Hc'. by apply IH.
Qed.

(** X17: one round of the loop.  When the long-poll in flight is
    answered with an index, the caller is waiting on the channel and the
    refresh read then succeeds, the index is stored in the [Watch], the
    caller is notified and the callback is called with the values of
    the refresh read; the caller is back waiting on the channel. *)
Theorem poll_success_delivers (c : watch_call) (σ : System B)
    l option watch kv meta b values w' :
  panicked σ = false → poller σ = PWaiting l option → main σ = MReceive →
  heap (world σ) !! l = Some watch →
  kv_get (target c) (Some option) (backend (world σ)) = ((kv, Some meta, None), b) →
  refresh c
    (mkWorld (store (world σ)) (<[l := set_LastIndex (QLastIndex meta) watch]> (heap (world σ)))
       b (calls (world σ) ++ [CallGet (target c) (Some option)]))
  = (Val (values, None), w') →
  let σ' := run c [RunPoller; Handoff; RunMain] σ in
  main σ' = MReceive ∧ poller σ' = PLookup
  ∧ history σ' =
      history σ ++ [LongPoll l option (inr (QLastIndex meta)); Notified (QLastIndex meta);
                    Refreshed None; Delivered values]
  ∧ LastIndex <$> heap (world σ') !! l = Some (QLastIndex meta)
  ∧ world σ' = w'.
Proof.
  intros Hp Hq Hm Hl Hk Hr σ'.
  assert (σ' =
    mkSystem w' MReceive PLookup (closed σ) false
      (history σ ++ [LongPoll l option (inr (QLastIndex meta)); Notified (QLastIndex meta);
                     Refreshed None; Delivered values])) as ->.
  { subst σ'. simpl. unfold step at 1. rewrite Hp. unfold poller_step at 1.
    rewrite Hq. rewrite (api_run _ _ _ _ _ Hk). simpl. rewrite Hl.
    unfold step. simpl. rewrite ?Hp, ?Hm. simpl. unfold set_heap. simpl.
    unfold main_step. simpl. rewrite Hr. by rewrite <- !app_assoc. }
  simpl. repeat split; try done.
  pose proof (refresh_frame c
    (mkWorld (store (world σ)) (<[l := set_LastIndex (QLastIndex meta) watch]> (heap (world σ)))
       b (calls (world σ) ++ [CallGet (target c) (Some option)]))) as [_ Hh].
  rewrite Hr in Hh. simpl in Hh. rewrite Hh.
  rewrite list_lookup_insert_eq by (by eapply lookup_lt_Some). done.
Qed.

End WatchContracts.

(** ** Concrete runs of the further properties *)

(** A miss and a hit. *)
Lemma Get_outcomes_witness :
  (Get "/k" (fresh_world [ReplyGet None (Some (mkQueryMeta 4)) None])).1
    = Val ([], 0%N, Some ErrKeyNotFound)
  ∧ (Get "/k" (fresh_world [ReplyGet (Some (mkKVPair "k" 9 [Byte.x01] ""))
                              (Some (mkQueryMeta 9)) None])).1
    = Val ([Byte.x01], 9%N, None).
Proof.
  split.
  - assert (kv_get (partialFormat "/k") None
              (backend (fresh_world [ReplyGet None (Some (mkQueryMeta 4)) None]))
            = ((None, Some (mkQueryMeta 4), None), [])) as E by reflexivity.
    destruct (Get_outcomes _ _ _ _ _ _ E) as (_ & H & _).
    exact (H eq_refl eq_refl).
  - assert (kv_get (partialFormat "/k") None
              (backend (fresh_world [ReplyGet (Some (mkKVPair "k" 9 [Byte.x01] ""))
                                       (Some (mkQueryMeta 9)) None]))
            = ((Some (mkKVPair "k" 9 [Byte.x01] ""), Some (mkQueryMeta 9), None), []))
      as E by reflexivity.
    destruct (Get_outcomes _ _ _ _ _ _ E) as (_ & _ & H & _).
    exact (H _ _ eq_refl eq_refl eq_refl).
Defined.

(** A miss, and a read that the backend refuses. *)
Lemma Exists_outcomes_witness :
  (Exists "/k" (fresh_world [ReplyGet None (Some (mkQueryMeta 4)) None])).1
    = Val (false, Some ErrKeyNotFound)
  ∧ (Exists "/k" (fresh_world [ReplyGet None None (Some (BackendError "refused"))])).1
    = Val (true, None).
Proof.
  split.
  - destruct (Exists_outcomes (fresh_world [ReplyGet None (Some (mkQueryMeta 4)) None]) "/k")
      as (_ & H & _).
    exact (H [] 0%N (Some ErrKeyNotFound) eq_refl).
  - destruct (Exists_outcomes
                (fresh_world [ReplyGet None None (Some (BackendError "refused"))]) "/k")
      as (_ & H & _).
    exact (H [] 0%N (Some (BackendError "refused")) eq_refl).
Defined.

(** A listing that fails. *)
Lemma GetRange_outcomes_witness :
  (GetRange "app" (fresh_world [ReplyList [] None (Some (BackendError "refused"))])).1
    = Val ([], Some (BackendError "refused")).
Proof.
  assert (kv_list (partialFormat "app") None
            (backend (fresh_world [ReplyList [] None (Some (BackendError "refused"))]))
          = (([], None, Some (BackendError "refused")), [])) as E by reflexivity.
  destruct (GetRange_outcomes _ _ _ _ _ _ E) as (H & _).
  exact (H _ eq_refl).
Defined.


(** A release whose [Destroy] fails, and a release of an unknown id. *)
Lemma Release_outcomes_witness :
  let w := mkWorld (test_store {["s-1" := Some SessionOf]} ∅) []
             [ReplyWrite false (Some (BackendError "refused"))] [] in
  ((Release "s-1" w).1 = Val None
   ∧ calls (Release "s-1" w).2 = calls w ++ [CallSessionDestroy "s-1"]
   ∧ backend (Release "s-1" w).2 = (session_destroy "s-1" (backend w)).2
   ∧ sessions (store (Release "s-1" w).2) !! "s-1" = Some None)
  ∧ Release "s-2" w = (Val (Some ErrSessionUndefined), w).
Proof.
  intros w. split.
  - destruct (Release_outcomes w "s-1") as (_ & _ & _ & _ & H).
    exact (H SessionOf eq_refl).
  - destruct (Release_outcomes w "s-2") as (_ & _ & _ & H & _).
    exact (H eq_refl).
Defined.

(** A session that cannot be created, and a lock that is taken. *)
Lemma Acquire_outcomes_witness :
  Acquire "/lock/a" [Byte.x78] (fresh_world [ReplySession "" (Some (BackendError "refused"))])
    = (Val ("", Some (BackendError "refused")),
       mkWorld (test_store ∅ ∅) [] [] [CallSessionCreate])
  ∧ (Acquire "/lock/a" [Byte.x78]
       (fresh_world [ReplySession "s-1" None; ReplyWrite true None])).1
    = Val ("s-1", None).
Proof.
  split.
  - assert (session_create_no_checks
              (backend (fresh_world [ReplySession "" (Some (BackendError "refused"))]))
            = (("", Some (BackendError "refused")), [])) as E by reflexivity.
    destruct (Acquire_outcomes _ "/lock/a" [Byte.x78] _ _ _ E) as (H & _).
    exact (H _ eq_refl).
  - assert (session_create_no_checks
              (backend (fresh_world [ReplySession "s-1" None; ReplyWrite true None]))
            = (("s-1", None), [ReplyWrite true None])) as E by reflexivity.
    destruct (Acquire_outcomes _ "/lock/a" [Byte.x78] _ _ _ E) as (_ & H).
    destruct (H eq_refl) as (_ & _ & _ & _ & H').
    exact (H' eq_refl).
Defined.

(** Take the lock, then release it. *)
Lemma Acquire_then_Release_witness :
  let w := fresh_world [ReplySession "s-1" None; ReplyWrite true None; ReplyWrite true None] in
  let w1 := (Acquire "/lock/a" [Byte.x78] w).2 in
  (Release "s-1" w1).1 = Val None
  ∧ calls (Release "s-1" w1).2 = calls w1 ++ [CallSessionDestroy "s-1"]
  ∧ sessions (store (Release "s-1" w1).2) !! "s-1" = Some None.
Proof.
  exact (Acquire_then_Release
           (fresh_world [ReplySession "s-1" None; ReplyWrite true None; ReplyWrite true None])
           "/lock/a" [Byte.x78] "s-1" eq_refl).
Defined.

(** Two rounds of a watch on a key. *)
Lemma callbacks_bounded_witness :
  let kv := mkKVPair "k" 5 [Byte.x01] "" in
  let σ := run (Watch_call "/k" 1000)
             [RunMain; RunMain; RunPoller; RunPoller; Handoff; RunMain;
              RunPoller; RunPoller; Handoff; RunMain]
             (start (fresh_world [ReplyGet (Some kv) (Some (mkQueryMeta 5)) None;
                                  ReplyGet (Some kv) (Some (mkQueryMeta 5)) None;
                                  ReplyGet (Some kv) (Some (mkQueryMeta 6)) None;
                                  ReplyGet (Some kv) (Some (mkQueryMeta 6)) None])) in
  delivered (history σ) = [[[Byte.x01]]; [[Byte.x01]]]
  ∧ Forall (λ values, length values = 1%nat) (delivered (history σ)).
Proof.
  intros kv σ. split; [reflexivity|].
  destruct (callbacks_bounded (Watch_call "/k" 1000)
              (fresh_world [ReplyGet (Some kv) (Some (mkQueryMeta 5)) None;
                            ReplyGet (Some kv) (Some (mkQueryMeta 5)) None;
                            ReplyGet (Some kv) (Some (mkQueryMeta 6)) None;
                            ReplyGet (Some kv) (Some (mkQueryMeta 6)) None])
              [RunMain; RunMain; RunPoller; RunPoller; Handoff; RunMain;
               RunPoller; RunPoller; Handoff; RunMain]) as (_ & _ & _ & _ & H).
  exact (H eq_refl).
Defined.

(** A fresh client whose goroutine runs first. *)
Lemma Watch_lookup_before_registration_witness :
  let c := Watch_call "/k" 1000 in
  let σ := run c [RunMain; RunPoller; RunPoller; RunMain; RunMain]
             (start (fresh_world [])) in
  main σ = MReturned None
  ∧ poller σ = PExited
  ∧ calls (world σ) = [] ∧ backend (world σ) = []
  ∧ history σ = []
  ∧ watches (store (world σ)) !! "k" = Some (Some 0%nat)
  ∧ heap (world σ) = [mkWatch 0 1000 0].
Proof.
  exact (Watch_lookup_before_registration (Watch_call "/k" 1000) (fresh_world [])
           (lookup_empty "k")).
Defined.

(** The refresh read fails right after the hand-off. *)
Lemma failed_refresh_then_lookup_panics_witness :
  let e := BackendError "refused" in
  let c := Watch_call "/k" 1000 in
  let σ := run c [RunMain; RunMain; RunPoller; RunPoller; Handoff; RunMain]
             (start (fresh_world [ReplyGet None (Some (mkQueryMeta 5)) None;
                                  ReplyGet None None (Some e)])) in
  main (run c [RunMain; RunPoller] σ) = MReturned (Some e)
  ∧ panicked (run c [RunMain; RunPoller] σ) = true.
Proof.
  intros e c σ.
  exact (failed_refresh_then_lookup_panics c σ e eq_refl eq_refl eq_refl).
Defined.

(** The goroutine has polled again when the refresh read fails. *)
Lemma blocked_sender_is_leaked_witness :
  let e := BackendError "refused" in
  let c := Watch_call "/k" 1000 in
  let σ := run c [RunMain; RunMain; RunPoller; RunPoller; Handoff; RunPoller; RunPoller;
                  RunMain; RunMain]
             (start (fresh_world [ReplyGet None (Some (mkQueryMeta 5)) None;
                                  ReplyGet None (Some (mkQueryMeta 7)) None;
                                  ReplyGet None None (Some e)])) in
  poller (run c [RunPoller; Handoff; RunMain; OtherCancel "/k"; RunPoller] σ) = PSending 7
  ∧ closed (run c [RunPoller; Handoff; RunMain; OtherCancel "/k"; RunPoller] σ) = false.
Proof.
  intros e c σ.
  exact (blocked_sender_is_leaked c [RunPoller; Handoff; RunMain; OtherCancel "/k"; RunPoller]
           σ (Some e) 7%N eq_refl eq_refl).
Defined.

(** The first round of a watch on a key. *)
Lemma poll_success_delivers_witness :
  let kv := mkKVPair "k" 5 [Byte.x01] "" in
  let c := Watch_call "/k" 1000 in
  let σ := run c [RunMain; RunMain; RunPoller]
             (start (fresh_world [ReplyGet (Some kv) (Some (mkQueryMeta 5)) None;
                                  ReplyGet (Some kv) (Some (mkQueryMeta 5)) None])) in
  let σ' := run c [RunPoller; Handoff; RunMain] σ in
  main σ' = MReceive ∧ poller σ' = PLookup
  ∧ history σ' =
      [LongPoll 0 (mkQueryOptions 0 1000) (inr 5%N); Notified 5; Refreshed None;
       Delivered [[Byte.x01]]]
  ∧ LastIndex <$> heap (world σ') !! 0%nat = Some 5%N.
Proof.
  intros kv c σ σ'.
  assert (kv_get (target c) (Some (mkQueryOptions 0 1000)) (backend (world σ))
          = ((Some kv, Some (mkQueryMeta 5), None),
             [ReplyGet (Some kv) (Some (mkQueryMeta 5)) None])) as Hk by reflexivity.
  assert (refresh c
            (mkWorld (store (world σ))
               (<[0%nat := set_LastIndex (QLastIndex (mkQueryMeta 5)) (mkWatch 0 1000 0)]>
                  (heap (world σ)))
               [ReplyGet (Some kv) (Some (mkQueryMeta 5)) None]
               (calls (world σ) ++ [CallGet (target c) (Some (mkQueryOptions 0 1000))]))
          = (Val ([[Byte.x01]], None),
             mkWorld (test_store ∅ {["k" := Some 0%nat]}) [mkWatch 5 1000 0] []
               [CallGet "k" (Some (mkQueryOptions 0 1000)); CallGet "k" None]))
    as Hr by reflexivity.
  destruct (poll_success_delivers c σ 0%nat (mkQueryOptions 0 1000) (mkWatch 0 1000 0)
              (Some kv) (mkQueryMeta 5) _ _ _ eq_refl eq_refl eq_refl eq_refl Hk Hr)
    as (H1 & H2 & H3 & H4 & _).
  repeat split; assumption.
Defined.

(** A cancel between the registration and the first lookup. *)
Lemma cancelled_lookup_panics_witness :
  let c := Watch_call "/k" 1000 in
  let σ := run c [RunMain; RunMain] (start (fresh_world [])) in
  panicked (run c [OtherCancel "/k"; RunPoller] σ) = true
  ∧ closed (run c [OtherCancel "/k"; RunPoller] σ) = closed σ
  ∧ poller (run c [OtherCancel "/k"; RunPoller] σ) = PLookup.
Proof.
  intros c σ.
  exact (cancelled_lookup_panics c "/k" σ eq_refl eq_refl eq_refl
           (ex_intro _ (Some 0%nat) eq_refl)).
Defined.
